(** * pycloudlib.kvm.cloud: image resolution and the instance-type catalog

    A shallow embedding of [src/pycloudlib/kvm/cloud.py] (class [KVM]) and
    the properties its specification states about it.

    - Python values are modelled as the code uses them: [str] as [string],
      a [dict] keyed by strings as stdpp's [gmap string _], a YAML number
      as [pynum] (an unbounded [int] or a binary64 [float]).
    - The object ([self]) and the outside world are threaded explicitly:
      a method is a function from a [world] to a [result] and a [world].
      An exception leaves the mutations made before it in place, as in
      Python.
    - The calls of [self._log.debug] change nothing that the methods or
      their callers can see and are left out.
    - Everything the class reaches but does not define (the streams query
      of the base class, [requests.get], [yaml.load], [subp], the file
      system) is a field of [Env]; its answer may depend on the calls made
      so far. *)

From Stdlib Require Import ZArith QArith Qround Qpower List String Ascii Bool Lia.
From Stdlib Require Import DecimalString.
From Stdlib Require Import Floats.SpecFloat.
From stdpp Require Import gmap strings.

Close Scope Q_scope.
Open Scope string_scope.
Open Scope list_scope.

(** ** Python strings *)

Module PyStr.

(** [s.index(c)] for a one-character [c]; [None] stands for the
    [ValueError] of a missing character, so [c in s] is [is_Some]. *)
Fixpoint index (c : ascii) (s : string) : option nat :=
  match s with
  | EmptyString => None
  | String a s' =>
      if Ascii.eqb a c then Some 0 else option_map S (index c s')
  end.

(** [c in s] *)
Definition contains (c : ascii) (s : string) : bool :=
  match index c s with Some _ => true | None => false end.

(** [s[:n]] *)
Fixpoint take (n : nat) (s : string) : string :=
  match n, s with
  | S n', String a s' => String a (take n' s')
  | _, _ => EmptyString
  end.

(** [s[n:]] *)
Fixpoint drop (n : nat) (s : string) : string :=
  match n, s with
  | S n', String _ s' => drop n' s'
  | _, _ => s
  end.

(** Truth value of a [str]: the empty string is false. *)
Definition truthy (s : string) : bool :=
  match s with EmptyString => false | String _ _ => true end.

(** Truth value of an optional argument ([None] or a [str]). *)
Definition opt_truthy (o : option string) : bool :=
  match o with None => false | Some s => truthy s end.

End PyStr.

(** ** Exceptions and results *)

Inductive exn : Type :=
| RuntimeError (msg : string)
| ValueError (msg : string)
| IndexError
| KeyError (key : string)
| OverflowError
| AttributeError (msg : string)
| NotImplementedError
| ExternalError (what : string).

Inductive result (A : Type) : Type :=
| Ok (a : A)
| Raise (e : exn).

Arguments Ok {A} a.
Arguments Raise {A} e.

(** The two [RuntimeError]s the class raises itself, under the names the
    specification's taxonomy gives them. *)
Definition UnknownRemoteError (remote : string) : exn :=
  RuntimeError ("Unknown remote: " +:+ remote).

Definition UnknownInstanceTypeError (instance_type : string) : exn :=
  RuntimeError ("Unknown instance type: " +:+ instance_type).

(** ** Python numbers *)

Module PyNum.

Definition prec : Z := 53.
Definition emax : Z := 1024.

(** A YAML scalar number: [int] or [float] (IEEE 754 binary64). *)
Inductive pynum : Type :=
| PInt (z : Z)
| PFloat (f : spec_float).

(** [float(z)]: the nearest binary64, ties to even. *)
Definition float_of_int (z : Z) : spec_float :=
  binary_normalize prec emax z 0 false.

(** [a * b] *)
Definition mul (a b : pynum) : pynum :=
  match a, b with
  | PInt x, PInt y => PInt (x * y)
  | PFloat x, PInt y => PFloat (SFmul prec emax x (float_of_int y))
  | PInt x, PFloat y => PFloat (SFmul prec emax (float_of_int x) y)
  | PFloat x, PFloat y => PFloat (SFmul prec emax x y)
  end.

(** [int(f)] on a float: the integer part, towards zero. *)
Definition int_of_float (f : spec_float) : result Z :=
  match f with
  | S754_zero _ => Ok 0%Z
  | S754_finite s m e => Ok (cond_Zopp s (Z.shiftl (Z.pos m) e))
  | S754_infinity _ => Raise OverflowError
  | S754_nan => Raise (ValueError "cannot convert float NaN to integer")
  end.

(** [int(x)] *)
Definition int (x : pynum) : result Z :=
  match x with
  | PInt z => Ok z
  | PFloat f => int_of_float f
  end.

(** [str(z)] on an [int]: decimal digits, [-] for a negative number. *)
Definition str (z : Z) : string := NilZero.string_of_int (Z.to_int z).

(** The exact rational value of a finite float. *)
Definition Q_of_float (f : spec_float) : option Q :=
  match f with
  | S754_zero _ => Some 0%Q
  | S754_finite s m e =>
      Some (inject_Z (cond_Zopp s (Z.pos m)) * Qpower 2 e)%Q
  | _ => None
  end.

End PyNum.

Import PyNum.

(** ** The object and the world *)

(** An image descriptor as the streams query returns it: a dict of string
    fields ([sha256], [version_name], [release], [arch], ...). *)
Abbreviation descriptor := (gmap string string).

(** One entry of an instance-type specification file: [{cpu: _, mem: _}]. *)
Record inst_spec : Type := { cpu : pynum; mem : pynum }.

Abbreviation catalog := (gmap string inst_spec).

(** The attributes of a [KVM] object that the methods read or write. *)
Record KVM : Type := {
  tag : string;
  _instance_types : option catalog   (* [None], or a dict *)
}.

Record KVMInstance : Type := { instance_name : string }.

(** What the object does to the outside, in the order it happens. *)
Inductive event : Type :=
| StreamsQuery (filters : list string) (daily : bool)
| HttpGet (url : string)
| Subp (cmd : list string) (data : option string).

Record world : Type := {
  self : KVM;
  log : list event
}.

(** The collaborators. Each answer may depend on the events so far. *)
Record Env : Type := {
  (* BaseCloud._streams_query(filters, daily) *)
  streams_answer : list event -> list string -> bool -> result (list descriptor);
  (* requests.get(url).text *)
  requests_get_text : list event -> string -> result string;
  (* yaml.load of the index document: provider name to file path, in
     document order *)
  yaml_load_index : string -> result (list (string * string));
  (* yaml.load of a specification document *)
  yaml_load_specs : string -> result catalog;
  (* pycloudlib.util.subp(cmd, data) *)
  subp_answer : list event -> list string -> option string -> result unit;
  (* os.path.isfile(path) and open(path).read() *)
  os_path_isfile : list event -> string -> bool;
  file_read : list event -> string -> result string
}.

(** ** The monad of methods *)

Definition M (A : Type) : Type := world -> result A * world.

Definition ret {A} (a : A) : M A := fun w => (Ok a, w).

Definition raise {A} (e : exn) : M A := fun w => (Raise e, w).

Definition bind {A B} (k : A -> M B) (c : M A) : M B :=
  fun w =>
    match c w with
    | (Ok a, w') => k a w'
    | (Raise e, w') => (Raise e, w')
    end.

Definition lift {A} (r : result A) : M A := fun w => (r, w).

#[global] Instance M_ret : MRet M := @ret.
#[global] Instance M_bind : MBind M := @bind.

Definition get_instance_types_attr : M (option catalog) :=
  fun w => (Ok (_instance_types (self w)), w).

Definition set_instance_types_attr (v : option catalog) : M unit :=
  fun w => (Ok tt, {| self := {| tag := tag (self w); _instance_types := v |};
                      log := log w |}).

Definition get_tag : M string := fun w => (Ok (tag (self w)), w).

(** [l[0]] *)
Definition list_item0 {A} (l : list A) : result A :=
  match l with
  | [] => Raise IndexError
  | x :: _ => Ok x
  end.

(** [d[k]] *)
Definition dict_item {V} (d : gmap string V) (k : string) : result V :=
  match d !! k with
  | Some v => Ok v
  | None => Raise (KeyError k)
  end.

(** [k in d] *)
Definition dict_contains {V} (d : gmap string V) (k : string) : bool :=
  match d !! k with
  | Some _ => true
  | None => false
  end.

(** Truth value of a dict: [len(d) != 0]. *)
Definition dict_truthy {V} (d : gmap string V) : bool :=
  negb (Nat.eqb (size d) 0).

(** [d.values()] of a dict kept in insertion order. *)
Definition dict_values {K V} (d : list (K * V)) : list V := map snd d.

(** ** The class *)

Section KVM.

Variable env : Env.

Definition _daily_remote : string := "daily".
Definition _releases_remote : string := "release".

(** [self._streams_query(filters, daily)]: the answer of the base class,
    with the call recorded. *)
Definition _streams_query (filters : list string) (daily : bool)
  : M (list descriptor) :=
  fun w =>
    (streams_answer env (log w) filters daily,
     {| self := self w; log := log w ++ [StreamsQuery filters daily] |}).

(** [requests.get(url).text] *)
Definition requests_get (url : string) : M string :=
  fun w =>
    (requests_get_text env (log w) url,
     {| self := self w; log := log w ++ [HttpGet url] |}).

(** [subp(cmd, data=data)] *)
Definition subp (cmd : list string) (data : option string) : M unit :=
  fun w =>
    (subp_answer env (log w) cmd data,
     {| self := self w; log := log w ++ [Subp cmd data] |}).

(** [_find_image(release, arch, daily)], lines 198-216. *)
Definition find_image_filters (release arch : string) : list string :=
  [ "datatype=image-downloads";
    "ftype=disk1.img";
    "arch=" +:+ arch;
    "release=" +:+ release ].

Definition _find_image (release arch : string) (daily : bool)
  : M descriptor :=
  images ← _streams_query (find_image_filters release arch) daily;
  lift (list_item0 images).

(** [released_image(release, arch)], lines 135-149. *)
Definition released_image (release arch : string) : M string :=
  image_data ← _find_image release arch false;
  sha ← lift (dict_item image_data "sha256");
  mret (_releases_remote +:+ ":" +:+ sha).

(** [daily_image(release, arch)], lines 151-165. *)
Definition daily_image (release arch : string) : M string :=
  image_data ← _find_image release arch true;
  sha ← lift (dict_item image_data "sha256");
  mret (_daily_remote +:+ ":" +:+ sha).

(** The first half of [image_serial], lines 180-187: the remote flag and
    the image id left after the prefix. *)
Definition split_remote (image_id : string) : result (bool * string) :=
  if PyStr.contains ":" image_id then
    match PyStr.index ":" image_id with
    | None => Raise (ValueError "substring not found")
    | Some i =>
        let remote := PyStr.take i image_id in
        let image_id' := PyStr.drop (i + 1) image_id in
        if String.eqb remote _releases_remote then Ok (false, image_id')
        else if negb (String.eqb remote _daily_remote)
             then Raise (UnknownRemoteError remote)
             else Ok (true, image_id')
    end
  else Ok (true, image_id).

(** [image_serial(image_id)], lines 167-191. *)
Definition image_serial (image_id : string) : M string :=
  '(daily, image_id') ← lift (split_remote image_id);
  let filters := ["sha256=" +:+ image_id'] in
  image_info ← _streams_query filters daily;
  first ← lift (list_item0 image_info);
  lift (dict_item first "version_name").

(** [__init__(tag)], lines 21-28. The base class, which is not part of
    this file, is taken to keep [tag] in [self.tag], where [launch] reads
    it; the class itself sets [_instance_types] to [None]. *)
Definition init (tag : string) : KVM :=
  {| tag := tag; _instance_types := None |}.

(** [get_instance(instance_name)], lines 41-51. *)
Definition get_instance (instance_name : string) : M KVMInstance :=
  mret {| instance_name := instance_name |}.

(** [snapshot(instance, clean, wait)], lines 113-125. *)
Definition snapshot (instance : KVMInstance) (clean wait : bool) : M string :=
  raise NotImplementedError.

(** [delete_image(image_id)], lines 127-133. *)
Definition delete_image (image_id : string) : M unit :=
  raise NotImplementedError.

(** [purge()], lines 193-196. *)
Definition purge : M unit := subp ["multipass"; "purge"] None.

(** *** The instance-type catalog, lines 218-229 *)

Definition baseurl : string :=
  "https://images.linuxcontainers.org/meta/instance-types/".

(** [self._instance_types.update(specs)]: the entries of [specs] replace
    those of the same key. *)
Definition update_instance_types (specs : catalog) : M unit :=
  cur ← get_instance_types_attr;
  match cur with
  | Some m => set_instance_types_attr (Some (specs ∪ m))
  | None => raise (AttributeError "'NoneType' object has no attribute 'update'")
  end.

(** The loop of lines 225-227 over [known_clouds.values()]. *)
Fixpoint fetch_specs (files : list string) : M unit :=
  match files with
  | [] => mret tt
  | f :: rest =>
      text ← requests_get (baseurl +:+ f);
      specs ← lift (yaml_load_specs env text);
      update_instance_types specs;;
      fetch_specs rest
  end.

(** Lines 222-229: what a call does once the guard of line 219 has let
    it through. *)
Definition fetch_instance_types : M catalog :=
  text ← requests_get (baseurl +:+ ".yaml");
  known_clouds ← lift (yaml_load_index env text);
  set_instance_types_attr (Some ∅);;
  fetch_specs (dict_values known_clouds);;
  cur ← get_instance_types_attr;
  match cur with
  | Some m => mret m
  | None => raise (AttributeError "_instance_types")
  end.

(** [_get_instance_types()]. The guard [if self._instance_types:] is a
    truth test: [None] and the empty dict both fail it. *)
Definition _get_instance_types : M catalog :=
  cur ← get_instance_types_attr;
  match cur with
  | Some m => if dict_truthy m then mret m else fetch_instance_types
  | None => fetch_instance_types
  end.

(** *** launch, lines 53-111 *)

(** Lines 85-89: the cpu count and the memory size of a named type, as
    the integers that [str] then prints. *)
Definition resolve_instance_type (instance_type : string) : M (Z * Z) :=
  inst_types ← _get_instance_types;
  if negb (dict_contains inst_types instance_type) then
    raise (UnknownInstanceTypeError instance_type)
  else
    spec ← lift (dict_item inst_types instance_type);
    cpus ← lift (PyNum.int (cpu spec));
    spec' ← lift (dict_item inst_types instance_type);
    mem_bytes ← lift (PyNum.int (PyNum.mul (mem spec') (PInt (1024 ^ 3))));
    mret (cpus, mem_bytes).

(** Lines 98-106: the extra arguments and the standard input of the
    command when [user_data] is given. *)
Definition user_data_args (user_data : option string)
  : M (list string * option string) :=
  match user_data with
  | Some u =>
      if PyStr.truthy u then
        fun w =>
          if os_path_isfile env (log w) u then
            match file_read env (log w) u with
            | Ok data => (Ok (["--cloud-init"; "-"], Some data), w)
            | Raise e => (Raise e, w)
            end
          else (Ok (["--cloud-init"; "-"], Some u), w)
      else mret ([], None)
  | None => mret ([], None)
  end.

Definition launch (image_id : string) (instance_type user_data : option string)
    (wait : bool) (name : option string) : M KVMInstance :=
  self_tag ← get_tag;
  let name := if PyStr.opt_truthy name then default self_tag name
              else self_tag in
  if negb wait then
    raise (ValueError "KVM launch cannot be called with wait=False")
  else
    let image_id :=
      if negb (PyStr.contains ":" image_id)
      then _daily_remote +:+ ":" +:+ image_id
      else image_id in
    let cmd := ["multipass"; "launch"; "--name"; name] in
    cmd ← (if PyStr.opt_truthy instance_type then
             '(cpus, mem_bytes) ← resolve_instance_type (default "" instance_type);
             mret (cmd ++ ["--cpus"; PyNum.str cpus; "--mem"; PyNum.str mem_bytes])
           else mret cmd);
    let cmd := cmd ++ [image_id] in
    '(extra, data) ← user_data_args user_data;
    subp (cmd ++ extra) data;;
    mret {| instance_name := name |}.

End KVM.

(** ** What the catalog host serves

    The specification documents a run of the loop of lines 225-227 is
    given, in the order of the files, when the log stands at [tr] as the
    loop starts; an exception of the transport or of the parser ends the
    run. *)
Fixpoint spec_documents (env : Env) (tr : list event) (files : list string)
  : result (list catalog) :=
  match files with
  | [] => Ok []
  | f :: rest =>
      match requests_get_text env tr (baseurl +:+ f) with
      | Ok text =>
          match yaml_load_specs env text with
          | Ok doc =>
              match spec_documents env (tr ++ [HttpGet (baseurl +:+ f)]) rest with
              | Ok docs => Ok (doc :: docs)
              | Raise e => Raise e
              end
          | Raise e => Raise e
          end
      | Raise e => Raise e
      end
  end.

(** The dict that [update] leaves after the documents [docs], in order,
    starting from [m0]. *)
Definition merged (m0 : catalog) (docs : list catalog) : catalog :=
  foldl (λ acc doc, doc ∪ acc) m0 docs.

(** The events of fetching [files] one after the other. *)
Definition spec_fetches (files : list string) : list event :=
  map (λ f, HttpGet (baseurl +:+ f)) files.

(** [n] calls of a method one after the other: the results in order and
    the world they leave. *)
Fixpoint repeat_calls {A} (c : M A) (n : nat) (w : world)
  : list (result A) * world :=
  match n with
  | 0 => ([], w)
  | S n' =>
      let '(r, w1) := c w in
      let '(rs, w2) := repeat_calls c n' w1 in
      (r :: rs, w2)
  end.

(** ** Integer parts and roundings of a rational

    [Qtrunc] is the integer part towards zero; [round_half_even] and
    [round_half_up] are the two roundings to a nearest integer that the
    specification leaves the choice between. *)

Module Rounding.

Definition Qtrunc (q : Q) : Z :=
  if Qle_bool 0 q then Qfloor q else Qceiling q.

Definition round_half_even (q : Q) : Z :=
  let f := Qfloor q in
  match Qcompare (q - inject_Z f) (1 # 2) with
  | Lt => f
  | Gt => (f + 1)%Z
  | Eq => if Z.even f then f else (f + 1)%Z
  end.

Definition round_half_up (q : Q) : Z := Qfloor (q + (1 # 2)).

End Rounding.

(** ** The pattern of an image reference

    The specification's [^(release|daily):\S+$] as Python's [re] reads it
    on ASCII text: one of the two remote names, a colon, one or more
    characters none of which is white space, and then the end of the
    string, before which one line feed may stand. White space is the
    characters 9 to 13, 28 to 31 and the space. *)

Module ImageRef.

Definition is_space (a : ascii) : bool :=
  let n := nat_of_ascii a in
  Nat.eqb n 32 || (Nat.leb 9 n && Nat.leb n 13)
  || (Nat.leb 28 n && Nat.leb n 31).

Definition line_feed : string := String "010" EmptyString.

(** [\S+$] on the rest of the string *)
Fixpoint nonspace_to_end (s : string) : bool :=
  match s with
  | EmptyString => false
  | String a s' =>
      negb (is_space a)
      && (negb (PyStr.truthy s') || String.eqb s' line_feed
          || nonspace_to_end s')
  end.

Fixpoint strip_prefix (p s : string) : option string :=
  match p, s with
  | EmptyString, _ => Some s
  | String a p', String b s' =>
      if Ascii.eqb a b then strip_prefix p' s' else None
  | String _ _, EmptyString => None
  end.

Definition matches (s : string) : bool :=
  match strip_prefix "release:" s with
  | Some t => nonspace_to_end t
  | None =>
      match strip_prefix "daily:" s with
      | Some t => nonspace_to_end t
      | None => false
      end
  end.

End ImageRef.

(** ** Content hashes

    The [sha256] field of a descriptor is a content hash: a string of
    hexadecimal digits that is not empty (a sha256 digest has sixty-four
    of them). *)

Module ContentHash.

Definition is_hex_digit (a : ascii) : bool :=
  let n := nat_of_ascii a in
  (Nat.leb 48 n && Nat.leb n 57)
  || (Nat.leb 97 n && Nat.leb n 102)
  || (Nat.leb 65 n && Nat.leb n 70).

Fixpoint all_hex (s : string) : bool :=
  match s with
  | EmptyString => true
  | String a s' => is_hex_digit a && all_hex s'
  end.

Definition is_digest (h : string) : bool := PyStr.truthy h && all_hex h.

End ContentHash.

(** ** Fixtures: a fresh object and collaborators that answer with fixed
    documents *)

Module Fixture.

Definition fresh : world :=
  {| self := {| tag := "test"; _instance_types := None |}; log := [] |}.

(** A streams service that knows one image on each remote and nothing
    else. *)
Definition streams (hash serial : string)
    (_ : list event) (filters : list string) (_ : bool)
  : result (list descriptor) :=
  if bool_decide (filters = ["sha256=" +:+ hash])
     || bool_decide (filters = find_image_filters "xenial" "amd64")
  then Ok [ {[ "sha256" := hash; "version_name" := serial ]} ]
  else Ok [].

(** A catalog host: [index] is the parsed index document and [files]
    maps a path to its parsed specification document; a document's text
    is its URL. *)
Definition env_of (hash serial : string)
    (index : list (string * string)) (files : list (string * catalog)) : Env :=
  {| streams_answer := streams hash serial;
     requests_get_text := fun _ url => Ok url;
     yaml_load_index := fun _ => Ok index;
     yaml_load_specs := fun text =>
       match List.find (fun '(p, _) => String.eqb (baseurl +:+ p) text) files with
       | Some (_, doc) => Ok doc
       | None => Raise (ExternalError "yaml")
       end;
     subp_answer := fun _ _ _ => Ok tt;
     os_path_isfile := fun _ _ => false;
     file_read := fun _ _ => Raise (ExternalError "open") |}.

Definition float_1_5 : spec_float := S754_finite false 6755399441055744 (-52).

Definition small : inst_spec := {| cpu := PInt 2; mem := PFloat float_1_5 |}.

Definition env0 : Env :=
  env_of "abc123" "20230101" [("kvm", "kvm.yaml")]
         [("kvm.yaml", {[ "small" := small ]})].

Definition catalog0 : catalog := {[ "small" := small ]}.

(** A host with two specification files that disagree on [small]. *)
Definition small_1cpu : inst_spec := {| cpu := PInt 1; mem := PInt 1 |}.

Definition env_two_files : Env :=
  env_of "abc123" "20230101"
         [("aws", "aws.yaml"); ("kvm", "kvm.yaml")]
         [("aws.yaml", {[ "small" := small_1cpu ]});
          ("kvm.yaml", {[ "small" := small ]})].

(** The binary64 nearest to 7/10, what YAML reads [0.7] as. *)
Definition float_0_7 : spec_float := S754_finite false 6305039478318694 (-53).

Definition medium : inst_spec := {| cpu := PInt 1; mem := PFloat float_0_7 |}.

Definition env_fraction : Env :=
  env_of "abc123" "20230101" [("kvm", "kvm.yaml")]
         [("kvm.yaml", {[ "medium" := medium ]})].

(** The host of [env_two_files] with one path that the transport fails
    on. *)
Definition env_failing (bad : string) : Env :=
  {| streams_answer := streams_answer env_two_files;
     requests_get_text := fun _ url =>
       if String.eqb url (baseurl +:+ bad)
       then Raise (ExternalError "requests") else Ok url;
     yaml_load_index := yaml_load_index env_two_files;
     yaml_load_specs := yaml_load_specs env_two_files;
     subp_answer := subp_answer env_two_files;
     os_path_isfile := os_path_isfile env_two_files;
     file_read := file_read env_two_files |}.

(** The binary64 nearest to 2/10, what YAML reads [0.2] as. *)
Definition float_0_2 : spec_float := S754_finite false 7205759403792794 (-55).

(** A type with a fifth of a cpu and a type with unbounded memory. *)
Definition micro : inst_spec :=
  {| cpu := PFloat float_0_2; mem := PFloat float_0_7 |}.

Definition endless : inst_spec :=
  {| cpu := PInt 1; mem := PFloat (S754_infinity false) |}.

Definition env_odd_types : Env :=
  env_of "abc123" "20230101" [("gce", "gce.yaml")]
         [("gce.yaml", {[ "micro" := micro; "endless" := endless ]})].

(** A streams service whose only descriptor has no field at all. *)
Definition env_bare_descriptor : Env :=
  {| streams_answer := fun _ _ _ => Ok [∅];
     requests_get_text := requests_get_text env0;
     yaml_load_index := yaml_load_index env0;
     yaml_load_specs := yaml_load_specs env0;
     subp_answer := subp_answer env0;
     os_path_isfile := os_path_isfile env0;
     file_read := file_read env0 |}.

(** A streams service that is down. *)
Definition env_streams_down : Env :=
  {| streams_answer := fun _ _ _ => Raise (ExternalError "streams");
     requests_get_text := requests_get_text env0;
     yaml_load_index := yaml_load_index env0;
     yaml_load_specs := yaml_load_specs env0;
     subp_answer := subp_answer env0;
     os_path_isfile := os_path_isfile env0;
     file_read := file_read env0 |}.

(** The collaborators of [env0] on a machine where [/tmp/seed.yaml] is a
    file. *)
Definition env_seed_file : Env :=
  {| streams_answer := streams_answer env0;
     requests_get_text := requests_get_text env0;
     yaml_load_index := yaml_load_index env0;
     yaml_load_specs := yaml_load_specs env0;
     subp_answer := subp_answer env0;
     os_path_isfile := fun _ path => String.eqb path "/tmp/seed.yaml";
     file_read := fun _ path =>
       if String.eqb path "/tmp/seed.yaml" then Ok "#cloud-config"
       else Raise (ExternalError "open") |}.

(** A host whose index names no specification file. *)
Definition env_empty_index : Env := env_of "abc123" "20230101" [] [].

(** A host whose index names two specification files, both without an
    entry. *)
Definition env_empty_files : Env :=
  env_of "abc123" "20230101"
         [("aws", "aws.yaml"); ("kvm", "kvm.yaml")]
         [("aws.yaml", ∅); ("kvm.yaml", ∅)].

End Fixture.

(** ** The claims that the code does not bear out, as the specification
    words them *)

(** The claim C5 as the specification words it: on an object that starts
    without a catalog, whatever mapping the first call returns, every
    later call returns the same and leaves the world, and so the log of
    fetches, as the first call left it. *)
Definition fetches_only_once (env : Env) : Prop :=
  ∀ (w w1 : world) (m : catalog),
    _instance_types (self w) = None →
    _get_instance_types env w = (Ok m, w1) →
    ∀ n : nat,
      repeat_calls (_get_instance_types env) n w1 = (repeat (Ok m) n, w1).

(** The claim C4 as the specification words it, for a rounding [round]
    to a nearest integer: the memory size of an entry whose [mem] is the
    float [v] resolves to [round (v * 1024^3)]. *)
Definition mem_bytes_rounded (round : Q → Z) (env : Env) : Prop :=
  ∀ (name : string) (w w1 : world) (m : catalog) (spec : inst_spec)
    (cpus : Z) (v : spec_float) (q : Q),
    _get_instance_types env w = (Ok m, w1) →
    m !! name = Some spec →
    PyNum.int (cpu spec) = Ok cpus →
    mem spec = PFloat v →
    Q_of_float v = Some q →
    resolve_instance_type env name w
    = (Ok (cpus, round (q * inject_Z (1024 ^ 3))%Q), w1).

(** ** Proof tools *)

Ltac unfold_M :=
  unfold mbind, M_bind, bind, mret, M_ret, ret, lift, raise in *.

(** ** The fixtures at work *)

Example image_serial_release :
  image_serial Fixture.env0 "release:abc123" Fixture.fresh
  = (Ok "20230101",
     {| self := self Fixture.fresh;
        log := [StreamsQuery ["sha256=abc123"] false] |}).
Proof. vm_compute. reflexivity. Qed.

Example launch_small :
  log (launch Fixture.env0 "xenial" (Some "small") None true None Fixture.fresh).2
  = [ HttpGet (baseurl +:+ ".yaml"); HttpGet (baseurl +:+ "kvm.yaml");
      Subp ["multipass"; "launch"; "--name"; "test"; "--cpus"; "2";
            "--mem"; "1610612736"; "daily:xenial"] None ].
Proof. vm_compute. reflexivity. Qed.

(** ** Strings: splitting at the first colon *)

Section Split.

Variable c : ascii.

Lemma index_app_sep (pre rest : string) :
  PyStr.index c pre = None →
  PyStr.index c (pre +:+ String c rest) = Some (String.length pre).
Proof.
  induction pre as [|a pre IH]; simpl.
  - intros _. rewrite Ascii.eqb_refl. reflexivity.
  - destruct (Ascii.eqb a c); [discriminate|].
    destruct (PyStr.index c pre) eqn:E; [discriminate|].
    intros _. rewrite IH; reflexivity.
Qed.

Lemma take_app (pre rest : string) :
  PyStr.take (String.length pre) (pre +:+ rest) = pre.
Proof. induction pre as [|a pre IH]; simpl; [destruct rest|]; congruence. Qed.

Lemma drop_app_sep (pre rest : string) :
  PyStr.drop (String.length pre + 1) (pre +:+ String c rest) = rest.
Proof. induction pre as [|a pre IH]; simpl; auto. Qed.

(** A string that has [c] splits at its first occurrence. *)
Lemma split_at_first (s : string) :
  PyStr.contains c s = true →
  ∃ pre rest : string,
    s = pre +:+ String c rest ∧ PyStr.index c pre = None.
Proof.
  unfold PyStr.contains. induction s as [|a s IH]; simpl; [discriminate|].
  destruct (Ascii.eqb a c) eqn:E.
  - intros _. apply Ascii.eqb_eq in E as ->. exists "", s. split; reflexivity.
  - destruct (PyStr.index c s) eqn:Hi; [|discriminate].
    intros _. destruct (IH eq_refl) as (pre & rest & -> & Hpre).
    exists (String a pre), rest. split; [reflexivity|].
    simpl. rewrite E, Hpre. reflexivity.
Qed.

Lemma contains_index (s : string) :
  PyStr.contains c s = false ↔ PyStr.index c s = None.
Proof. unfold PyStr.contains. destruct (PyStr.index c s); split; congruence. Qed.

End Split.

(** What [split_remote] computes, case by case. *)
Lemma split_remote_no_colon (image_id : string) :
  PyStr.contains ":" image_id = false →
  split_remote image_id = Ok (true, image_id).
Proof. intros H. unfold split_remote. rewrite H. reflexivity. Qed.

Lemma split_remote_prefixed (remote rest : string) :
  PyStr.contains ":" remote = false →
  split_remote (remote +:+ ":" +:+ rest)
  = if String.eqb remote "release" then Ok (false, rest)
    else if String.eqb remote "daily" then Ok (true, rest)
    else Raise (UnknownRemoteError remote).
Proof.
  intros H. apply contains_index in H.
  unfold split_remote, PyStr.contains.
  change (":" +:+ rest) with (String ":" rest).
  rewrite (index_app_sep _ _ rest H), take_app, drop_app_sep.
  unfold _releases_remote, _daily_remote.
  destruct (String.eqb remote "release"); [reflexivity|].
  destruct (String.eqb remote "daily"); reflexivity.
Qed.

(** ** image_serial *)

(** Once the prefix is accepted, [image_serial] is one query and two
    subscripts. *)
Lemma image_serial_after_split (env : Env) (image_id id' : string)
    (daily : bool) (w : world) :
  split_remote image_id = Ok (daily, id') →
  image_serial env image_id w
  = (match streams_answer env (log w) ["sha256=" +:+ id'] daily with
     | Ok image_info =>
         match list_item0 image_info with
         | Ok first => dict_item first "version_name"
         | Raise e => Raise e
         end
     | Raise e => Raise e
     end,
     {| self := self w;
        log := log w ++ [StreamsQuery ["sha256=" +:+ id'] daily] |}).
Proof.
  intros H. unfold image_serial, _streams_query. unfold_M. rewrite H.
  destruct (streams_answer env (log w) ["sha256=" +:+ id'] daily) as [l|e];
    [|reflexivity].
  destruct (list_item0 l); reflexivity.
Qed.

Lemma image_serial_rejected (env : Env) (image_id : string) (e : exn)
    (w : world) :
  split_remote image_id = Raise e →
  image_serial env image_id w = (Raise e, w).
Proof. intros H. unfold image_serial. unfold_M. rewrite H. reflexivity. Qed.

(** C3. Which remote [image_serial] queries: the daily one for an id
    without a prefix or with the prefix [daily], the release one for the
    prefix [release]; any other prefix raises the unknown-remote error
    and the world is left as it was, so no query was issued. The prefix
    is what stands before the first colon; by [split_at_first] every id
    that has a colon is such a prefix, a colon and a rest. *)
Theorem image_serial_remote_dispatch (env : Env) (image_id : string)
    (w : world) :
  (PyStr.contains ":" image_id = false →
   log (image_serial env image_id w).2
   = log w ++ [StreamsQuery ["sha256=" +:+ image_id] true])
  ∧ (∀ remote rest : string,
       image_id = remote +:+ ":" +:+ rest →
       PyStr.contains ":" remote = false →
       (remote = "release" →
        log (image_serial env image_id w).2
        = log w ++ [StreamsQuery ["sha256=" +:+ rest] false])
       ∧ (remote = "daily" →
          log (image_serial env image_id w).2
          = log w ++ [StreamsQuery ["sha256=" +:+ rest] true])
       ∧ (remote ≠ "release" → remote ≠ "daily" →
          image_serial env image_id w
          = (Raise (UnknownRemoteError remote), w))).
Proof.
  split.
  - intros H.
    rewrite (image_serial_after_split env _ _ _ w (split_remote_no_colon _ H)).
    reflexivity.
  - intros remote rest -> Hremote.
    pose proof (split_remote_prefixed remote rest Hremote) as Hsplit.
    repeat split.
    + intros ->. simpl in Hsplit.
      rewrite (image_serial_after_split env _ _ _ w Hsplit). reflexivity.
    + intros ->. simpl in Hsplit.
      rewrite (image_serial_after_split env _ _ _ w Hsplit). reflexivity.
    + intros Hr Hd.
      apply String.eqb_neq in Hr, Hd. rewrite Hr, Hd in Hsplit.
      apply image_serial_rejected, Hsplit.
Qed.

Lemma image_serial_remote_dispatch_witness :
  log (image_serial Fixture.env0 "abc123" Fixture.fresh).2
  = [StreamsQuery ["sha256=abc123"] true]
  ∧ log (image_serial Fixture.env0 "release:abc123" Fixture.fresh).2
    = [StreamsQuery ["sha256=abc123"] false]
  ∧ log (image_serial Fixture.env0 "daily:abc123" Fixture.fresh).2
    = [StreamsQuery ["sha256=abc123"] true]
  ∧ image_serial Fixture.env0 "bogus:abc123" Fixture.fresh
    = (Raise (UnknownRemoteError "bogus"), Fixture.fresh).
Proof.
  split; [|split; [|split]].
  - apply (proj1 (image_serial_remote_dispatch Fixture.env0 "abc123" Fixture.fresh)).
    reflexivity.
  - apply (proj2 (image_serial_remote_dispatch
                    Fixture.env0 "release:abc123" Fixture.fresh)
             "release" "abc123"); reflexivity.
  - apply (proj2 (image_serial_remote_dispatch
                    Fixture.env0 "daily:abc123" Fixture.fresh)
             "daily" "abc123"); reflexivity.
  - apply (proj2 (image_serial_remote_dispatch
                    Fixture.env0 "bogus:abc123" Fixture.fresh)
             "bogus" "abc123"); [reflexivity | reflexivity | discriminate | discriminate].
Defined.

(** C1. When the remote prefix is valid and the query answers with the
    empty sequence, [image_serial] subscripts it with [0]: what it raises
    is the out-of-range [IndexError] of that subscript, after the query
    was issued. *)
Theorem image_serial_empty_result (env : Env) (image_id id' : string)
    (daily : bool) (w : world) :
  split_remote image_id = Ok (daily, id') →
  streams_answer env (log w) ["sha256=" +:+ id'] daily = Ok [] →
  image_serial env image_id w
  = (Raise IndexError,
     {| self := self w;
        log := log w ++ [StreamsQuery ["sha256=" +:+ id'] daily] |}).
Proof.
  intros Hsplit Hempty.
  rewrite (image_serial_after_split env _ _ _ w Hsplit), Hempty. reflexivity.
Qed.

Lemma image_serial_empty_result_witness :
  image_serial Fixture.env0 "release:ffff" Fixture.fresh
  = (Raise IndexError,
     {| self := self Fixture.fresh;
        log := [StreamsQuery ["sha256=ffff"] false] |}).
Proof.
  apply (image_serial_empty_result Fixture.env0 "release:ffff" "ffff" false
           Fixture.fresh); reflexivity.
Defined.

(** ** _find_image, released_image, daily_image *)

Lemma find_image_unfold (env : Env) (release arch : string) (daily : bool)
    (w : world) :
  _find_image env release arch daily w
  = (match streams_answer env (log w) (find_image_filters release arch) daily with
     | Ok images => list_item0 images
     | Raise e => Raise e
     end,
     {| self := self w;
        log := log w ++ [StreamsQuery (find_image_filters release arch) daily] |}).
Proof.
  unfold _find_image, _streams_query. unfold_M.
  destruct (streams_answer env (log w) (find_image_filters release arch) daily);
    reflexivity.
Qed.

(** C7. [_find_image] adds exactly one event to the log, the streams
    query with the four filters and the daily flag it was given, touches
    nothing of the object, and returns the head of the answer when the
    answer has one. *)
Theorem find_image_one_query (env : Env) (release arch : string)
    (daily : bool) (w : world) :
  let filters := [ "datatype=image-downloads"; "ftype=disk1.img";
                   "arch=" +:+ arch; "release=" +:+ release ] in
  log (_find_image env release arch daily w).2
  = log w ++ [StreamsQuery filters daily]
  ∧ self (_find_image env release arch daily w).2 = self w
  ∧ ∀ (d : descriptor) (ds : list descriptor),
      streams_answer env (log w) filters daily = Ok (d :: ds) →
      (_find_image env release arch daily w).1 = Ok d.
Proof.
  intros filters. rewrite find_image_unfold. repeat split.
  intros d ds H. simpl. unfold filters in H.
  unfold find_image_filters. rewrite H. reflexivity.
Qed.

Lemma find_image_one_query_witness :
  (_find_image Fixture.env0 "xenial" "amd64" false Fixture.fresh).1
  = Ok {[ "sha256" := "abc123"; "version_name" := "20230101" ]}.
Proof.
  apply (proj2 (proj2 (find_image_one_query
                         Fixture.env0 "xenial" "amd64" false Fixture.fresh))
           _ []).
  reflexivity.
Defined.

(** C2. When the query answers with the empty sequence, [_find_image]
    subscripts it with [0] and raises the out-of-range [IndexError]. *)
Theorem find_image_empty_result (env : Env) (release arch : string)
    (daily : bool) (w : world) :
  streams_answer env (log w) (find_image_filters release arch) daily = Ok [] →
  _find_image env release arch daily w
  = (Raise IndexError,
     {| self := self w;
        log := log w ++ [StreamsQuery (find_image_filters release arch) daily] |}).
Proof. intros H. rewrite find_image_unfold, H. reflexivity. Qed.

Lemma find_image_empty_result_witness :
  _find_image Fixture.env0 "plucky" "riscv64" true Fixture.fresh
  = (Raise IndexError,
     {| self := self Fixture.fresh;
        log := [StreamsQuery (find_image_filters "plucky" "riscv64") true] |}).
Proof.
  apply (find_image_empty_result Fixture.env0 "plucky" "riscv64" true
           Fixture.fresh).
  reflexivity.
Defined.

Lemma released_image_unfold (env : Env) (release arch : string) (w w' : world)
    (d : descriptor) :
  _find_image env release arch false w = (Ok d, w') →
  released_image env release arch w
  = (match dict_item d "sha256" with
     | Ok sha => Ok ("release:" +:+ sha)
     | Raise e => Raise e
     end, w').
Proof.
  intros H. unfold released_image. unfold_M. rewrite H.
  destruct (dict_item d "sha256"); reflexivity.
Qed.

Lemma daily_image_unfold (env : Env) (release arch : string) (w w' : world)
    (d : descriptor) :
  _find_image env release arch true w = (Ok d, w') →
  daily_image env release arch w
  = (match dict_item d "sha256" with
     | Ok sha => Ok ("daily:" +:+ sha)
     | Raise e => Raise e
     end, w').
Proof.
  intros H. unfold daily_image. unfold_M. rewrite H.
  destruct (dict_item d "sha256"); reflexivity.
Qed.

Example image_ref_pattern_edges :
  ImageRef.matches "release:" = false
  ∧ ImageRef.matches "daily:abc 123" = false
  ∧ ImageRef.matches ("release:abc" +:+ String "028" EmptyString) = false
  ∧ ImageRef.matches ("release:abc" +:+ ImageRef.line_feed) = true
  ∧ ImageRef.matches "bogus:abc" = false.
Proof. repeat split. Qed.

(** A hexadecimal digit is not white space. *)
Lemma hex_digit_not_space (a : ascii) :
  ContentHash.is_hex_digit a = true → ImageRef.is_space a = false.
Proof.
  destruct a as [[] [] [] [] [] [] [] []]; vm_compute; intros H;
    (reflexivity || discriminate H).
Qed.

(** A content hash is one or more characters that are not white space,
    up to the end. *)
Lemma digest_nonspace_to_end (h : string) :
  ContentHash.is_digest h = true → ImageRef.nonspace_to_end h = true.
Proof.
  unfold ContentHash.is_digest. induction h as [|a h IH]; [discriminate|].
  cbn [PyStr.truthy ContentHash.all_hex ImageRef.nonspace_to_end andb].
  intros H. apply andb_true_iff in H as [Ha Hh].
  rewrite (hex_digit_not_space a Ha). cbn [negb andb].
  destruct h as [|b h]; [reflexivity|].
  rewrite (IH Hh). apply orb_true_r.
Qed.

(** C8. When [_find_image] succeeds, [released_image] returns
    ["release:"] followed by the [sha256] field of the descriptor that
    [_find_image] returned with [daily=False], and [daily_image] returns
    ["daily:"] followed by the [sha256] field of the descriptor returned
    with [daily=True]; the field being a content hash, both results match
    the pattern. *)
Theorem image_refs_format (env : Env) (release arch : string) (w : world) :
  (∀ (d : descriptor) (w' : world) (h : string),
      _find_image env release arch false w = (Ok d, w') →
      d !! "sha256" = Some h →
      released_image env release arch w = (Ok ("release:" +:+ h), w')
      ∧ (ContentHash.is_digest h = true →
         ImageRef.matches ("release:" +:+ h) = true))
  ∧ (∀ (d : descriptor) (w' : world) (h : string),
        _find_image env release arch true w = (Ok d, w') →
        d !! "sha256" = Some h →
        daily_image env release arch w = (Ok ("daily:" +:+ h), w')
        ∧ (ContentHash.is_digest h = true →
           ImageRef.matches ("daily:" +:+ h) = true)).
Proof.
  split; intros d w' h Hfind Hsha; split.
  - rewrite (released_image_unfold _ _ _ _ _ _ Hfind).
    unfold dict_item. rewrite Hsha. reflexivity.
  - intros Hh.
    change (ImageRef.matches ("release:" +:+ h))
      with (ImageRef.nonspace_to_end h).
    apply digest_nonspace_to_end, Hh.
  - rewrite (daily_image_unfold _ _ _ _ _ _ Hfind).
    unfold dict_item. rewrite Hsha. reflexivity.
  - intros Hh.
    change (ImageRef.matches ("daily:" +:+ h))
      with (ImageRef.nonspace_to_end h).
    apply digest_nonspace_to_end, Hh.
Qed.

Lemma image_refs_format_witness :
  (released_image Fixture.env0 "xenial" "amd64" Fixture.fresh).1
  = Ok "release:abc123"
  ∧ ImageRef.matches "release:abc123" = true
  ∧ (daily_image Fixture.env0 "xenial" "amd64" Fixture.fresh).1
    = Ok "daily:abc123"
  ∧ ImageRef.matches "daily:abc123" = true.
Proof.
  pose proof (image_refs_format Fixture.env0 "xenial" "amd64" Fixture.fresh)
    as [Hrel Hday].
  destruct (Hrel {[ "sha256" := "abc123"; "version_name" := "20230101" ]}
              {| self := self Fixture.fresh;
                 log := [StreamsQuery (find_image_filters "xenial" "amd64") false] |}
              "abc123") as [H1 H2]; [reflexivity | reflexivity |].
  destruct (Hday {[ "sha256" := "abc123"; "version_name" := "20230101" ]}
              {| self := self Fixture.fresh;
                 log := [StreamsQuery (find_image_filters "xenial" "amd64") true] |}
              "abc123") as [H3 H4]; [reflexivity | reflexivity |].
  split; [rewrite H1; reflexivity|].
  split; [apply H2; reflexivity|].
  split; [rewrite H3; reflexivity|].
  apply H4; reflexivity.
Defined.

(** ** The instance-type catalog *)

Section Catalog.

Variable env : Env.

Lemma world_eta (w : world) :
  {| self := {| tag := tag (self w);
                _instance_types := _instance_types (self w) |};
     log := log w |} = w.
Proof. destruct w as [[t it] l]. reflexivity. Qed.

(** The loop, when every file is served: each document is merged over
    what the attribute held, and one fetch per file is logged. *)
Lemma fetch_specs_run (files : list string) :
  ∀ (w : world) (m0 : catalog) (docs : list catalog),
    _instance_types (self w) = Some m0 →
    spec_documents env (log w) files = Ok docs →
    fetch_specs env files w
    = (Ok tt,
       {| self := {| tag := tag (self w);
                     _instance_types := Some (merged m0 docs) |};
          log := log w ++ spec_fetches files |}).
Proof.
  induction files as [|f rest IH]; intros w m0 docs Hattr Hdocs.
  - simpl in Hdocs. injection Hdocs as <-. simpl.
    rewrite app_nil_r, <- Hattr, world_eta. reflexivity.
  - simpl in Hdocs.
    destruct (requests_get_text env (log w) (baseurl +:+ f)) as [text|] eqn:Ht;
      [|discriminate].
    destruct (yaml_load_specs env text) as [doc|] eqn:Hd; [|discriminate].
    destruct (spec_documents env (log w ++ [HttpGet (baseurl +:+ f)]) rest)
      as [docs'|] eqn:Hrest; [|discriminate].
    injection Hdocs as <-.
    cbn [fetch_specs]. unfold requests_get, update_instance_types,
      get_instance_types_attr, set_instance_types_attr. unfold_M.
    rewrite Ht, Hd. cbn [self log _instance_types tag]. rewrite Hattr.
    rewrite (IH _ (doc ∪ m0) docs'); [|reflexivity|exact Hrest].
    cbn [self log _instance_types tag merged foldl spec_fetches map].
    rewrite <- app_assoc. reflexivity.
Qed.

(** The loop adds nothing to the log but fetches. *)
Lemma fetch_specs_extends (files : list string) :
  ∀ w : world,
    ∃ urls : list string,
      log (fetch_specs env files w).2 = log w ++ map HttpGet urls.
Proof.
  induction files as [|f files IH]; intros w.
  - exists []. simpl. rewrite app_nil_r. reflexivity.
  - cbn [fetch_specs]. unfold requests_get, update_instance_types,
      get_instance_types_attr, set_instance_types_attr. unfold_M.
    destruct (requests_get_text env (log w) (baseurl +:+ f)) as [text|];
      [|exists [baseurl +:+ f]; reflexivity].
    destruct (yaml_load_specs env text) as [doc|];
      [|exists [baseurl +:+ f]; reflexivity].
    cbn [self log _instance_types tag].
    destruct (_instance_types (self w)) as [m|];
      [|exists [baseurl +:+ f]; reflexivity].
    cbn [self log _instance_types tag].
    match goal with |- context [fetch_specs env files ?w0] =>
      destruct (IH w0) as [urls Hurls] end.
    cbn [self log] in Hurls. exists ((baseurl +:+ f) :: urls).
    rewrite Hurls, <- app_assoc. reflexivity.
Qed.

(** The uncached path, when the index and every file are served. *)
Lemma fetch_instance_types_run (w : world) (text : string)
    (index : list (string * string)) (docs : list catalog) :
  requests_get_text env (log w) (baseurl +:+ ".yaml") = Ok text →
  yaml_load_index env text = Ok index →
  spec_documents env (log w ++ [HttpGet (baseurl +:+ ".yaml")])
                 (dict_values index) = Ok docs →
  fetch_instance_types env w
  = (Ok (merged ∅ docs),
     {| self := {| tag := tag (self w);
                   _instance_types := Some (merged ∅ docs) |};
        log := log w ++ HttpGet (baseurl +:+ ".yaml")
                     :: spec_fetches (dict_values index) |}).
Proof.
  intros Ht Hi Hdocs.
  unfold fetch_instance_types, requests_get, get_instance_types_attr,
    set_instance_types_attr. unfold_M.
  rewrite Ht, Hi. cbn [self log _instance_types tag].
  erewrite fetch_specs_run; [|reflexivity|exact Hdocs].
  cbn [self log _instance_types tag]. rewrite <- app_assoc. reflexivity.
Qed.

(** The uncached path starts with the fetch of the index, whatever
    happens next, and adds nothing to the log but fetches. *)
Lemma fetch_instance_types_starts (w : world) :
  ∃ urls : list string,
    log (fetch_instance_types env w).2
    = log w ++ HttpGet (baseurl +:+ ".yaml") :: map HttpGet urls.
Proof.
  unfold fetch_instance_types, requests_get, get_instance_types_attr,
    set_instance_types_attr. unfold_M.
  destruct (requests_get_text env (log w) (baseurl +:+ ".yaml")) as [text|];
    [|exists []; reflexivity].
  destruct (yaml_load_index env text) as [index|]; [|exists []; reflexivity].
  match goal with |- context [fetch_specs env ?fs ?w0] =>
    destruct (fetch_specs_extends fs w0) as [urls Hurls];
    destruct (fetch_specs env fs w0) as [[[]|e] w1] end;
    cbn [self log snd] in *.
  - exists urls.
    destruct (_instance_types (self w1)); cbn [snd];
      rewrite Hurls, <- app_assoc; reflexivity.
  - exists urls. rewrite Hurls, <- app_assoc. reflexivity.
Qed.

(** A call adds nothing to the log but fetches. *)
Lemma get_instance_types_log (w : world) :
  ∃ urls : list string,
    log (_get_instance_types env w).2 = log w ++ map HttpGet urls.
Proof.
  assert (∃ urls, log (fetch_instance_types env w).2
                  = log w ++ map HttpGet urls) as Hfetch.
  { destruct (fetch_instance_types_starts w) as [urls H].
    exists ((baseurl +:+ ".yaml") :: urls). exact H. }
  unfold _get_instance_types, get_instance_types_attr. unfold_M.
  destruct (_instance_types (self w)) as [m|]; [|exact Hfetch].
  destruct (dict_truthy m); [|exact Hfetch].
  exists []. simpl. rewrite app_nil_r. reflexivity.
Qed.

(** A mapping that the uncached path returns is the one it left in the
    attribute. *)
Lemma fetch_instance_types_cached (w w1 : world) (m : catalog) :
  fetch_instance_types env w = (Ok m, w1) →
  _instance_types (self w1) = Some m.
Proof.
  unfold fetch_instance_types, requests_get, get_instance_types_attr,
    set_instance_types_attr. unfold_M.
  destruct (requests_get_text env (log w) (baseurl +:+ ".yaml")) as [text|];
    [|discriminate].
  destruct (yaml_load_index env text) as [index|]; [|discriminate].
  match goal with |- context [fetch_specs env ?fs ?w0] =>
    destruct (fetch_specs env fs w0) as [[[]|e] w2] end; [|discriminate].
  destruct (_instance_types (self w2)) as [m'|] eqn:E; [|discriminate].
  intros H. injection H as <- <-. exact E.
Qed.

Lemma dict_truthy_nonempty (m : catalog) : dict_truthy m = true ↔ m ≠ ∅.
Proof.
  unfold dict_truthy. rewrite negb_true_iff, Nat.eqb_neq.
  rewrite <- (map_size_empty_iff m). reflexivity.
Qed.

Lemma dict_truthy_empty : dict_truthy (∅ : catalog) = false.
Proof. reflexivity. Qed.

Lemma get_instance_types_cached (w w1 : world) (m : catalog) :
  _get_instance_types env w = (Ok m, w1) →
  _instance_types (self w1) = Some m.
Proof.
  unfold _get_instance_types, get_instance_types_attr. unfold_M.
  destruct (_instance_types (self w)) as [m0|] eqn:E.
  - destruct (dict_truthy m0).
    + intros H. injection H as <- <-. exact E.
    + apply fetch_instance_types_cached.
  - apply fetch_instance_types_cached.
Qed.

(** A call that finds a non-empty dict in the attribute returns it and
    does nothing else. *)
Lemma get_instance_types_hit (w : world) (m : catalog) :
  _instance_types (self w) = Some m → m ≠ ∅ →
  _get_instance_types env w = (Ok m, w).
Proof.
  intros E Hm. apply dict_truthy_nonempty in Hm.
  unfold _get_instance_types, get_instance_types_attr. unfold_M.
  rewrite E, Hm. reflexivity.
Qed.

(** A call that finds [None] or the empty dict takes the uncached
    path. *)
Lemma get_instance_types_miss (w : world) :
  _instance_types (self w) = None ∨ _instance_types (self w) = Some ∅ →
  _get_instance_types env w = fetch_instance_types env w.
Proof.
  unfold _get_instance_types, get_instance_types_attr. unfold_M.
  intros [-> | ->]; reflexivity.
Qed.

End Catalog.

(** *** Caching *)

Lemma repeat_calls_hit (env : Env) (w : world) (m : catalog) (n : nat) :
  _instance_types (self w) = Some m → m ≠ ∅ →
  repeat_calls (_get_instance_types env) n w = (repeat (Ok m) n, w).
Proof.
  intros E Hm. induction n as [|n IH]; [reflexivity|].
  cbn [repeat_calls repeat].
  rewrite (get_instance_types_hit env w m E Hm), IH. reflexivity.
Qed.

(** C5, counterexample. With an index that names no file the first call
    returns the empty dict, and the second call fetches the index
    again. *)
Lemma fetches_twice_on_empty_index :
  ¬ fetches_only_once Fixture.env_empty_index.
Proof.
  intros H.
  specialize (H Fixture.fresh _ _ eq_refl eq_refl 1).
  apply (f_equal (λ p, length (log p.2))) in H.
  vm_compute in H. discriminate H.
Qed.

(** C5, amended. Once a call has returned a mapping that is not empty,
    every later call returns that mapping and leaves the world untouched:
    the log gains no fetch. *)
Theorem cached_catalog_reused (env : Env) (w w1 : world) (m : catalog) :
  _get_instance_types env w = (Ok m, w1) →
  m ≠ ∅ →
  ∀ n : nat,
    repeat_calls (_get_instance_types env) n w1 = (repeat (Ok m) n, w1).
Proof.
  intros Hcall Hm n.
  apply repeat_calls_hit; [|exact Hm].
  exact (get_instance_types_cached env w w1 m Hcall).
Qed.

Lemma cached_catalog_reused_witness :
  let w1 := {| self := {| tag := "test";
                          _instance_types := Some Fixture.catalog0 |};
               log := [ HttpGet (baseurl +:+ ".yaml");
                        HttpGet (baseurl +:+ "kvm.yaml") ] |} in
  repeat_calls (_get_instance_types Fixture.env0) 2 w1
  = ([Ok Fixture.catalog0; Ok Fixture.catalog0], w1).
Proof.
  intros w1.
  apply (cached_catalog_reused Fixture.env0 Fixture.fresh w1 Fixture.catalog0).
  - vm_compute. reflexivity.
  - apply dict_truthy_nonempty. reflexivity.
Defined.

Lemma repeat_calls_still_empty (env : Env) (n : nat) :
  ∀ (w wn : world) (rs : list (result catalog)),
    _instance_types (self w) = Some ∅ →
    repeat_calls (_get_instance_types env) n w = (rs, wn) →
    Forall (λ r, r = Ok ∅) rs →
    _instance_types (self wn) = Some ∅.
Proof.
  induction n as [|n IH]; intros w wn rs E Hcalls Hrs.
  - injection Hcalls as <- <-. exact E.
  - cbn [repeat_calls] in Hcalls.
    destruct (_get_instance_types env w) as [r w'] eqn:Hcall.
    destruct (repeat_calls (_get_instance_types env) n w') as [rs' w''] eqn:Hn.
    injection Hcalls as <- <-.
    inversion Hrs as [|? ? Hr Hrs']; subst.
    apply (IH w' w'' rs'); [|exact Hn|exact Hrs'].
    exact (get_instance_types_cached env w w' ∅ Hcall).
Qed.

(** C10. A call that produced the empty mapping leaves the empty dict in
    the attribute, and the guard does not take it for a catalog: every
    later call made while the calls before it produced the empty mapping
    too is the uncached path. It fetches the index first and, when the
    index and the files are served, after it every file that the index
    names, one fetch for each entry of the index in the order of the
    entries, and returns what these files hold. *)
Theorem empty_catalog_refetched (env : Env) (w w1 : world) :
  _get_instance_types env w = (Ok ∅, w1) →
  ∀ (n : nat) (rs : list (result catalog)) (wn : world),
    repeat_calls (_get_instance_types env) n w1 = (rs, wn) →
    Forall (λ r, r = Ok ∅) rs →
    _get_instance_types env wn = fetch_instance_types env wn
    ∧ (∃ urls : list string,
          log (_get_instance_types env wn).2
          = log wn ++ HttpGet (baseurl +:+ ".yaml") :: map HttpGet urls)
    ∧ (∀ (text : string) (index : list (string * string))
         (docs : list catalog),
          requests_get_text env (log wn) (baseurl +:+ ".yaml") = Ok text →
          yaml_load_index env text = Ok index →
          spec_documents env (log wn ++ [HttpGet (baseurl +:+ ".yaml")])
                         (map snd index) = Ok docs →
          log (_get_instance_types env wn).2
          = log wn ++ HttpGet (baseurl +:+ ".yaml")
                   :: map (λ entry, HttpGet (baseurl +:+ entry.2)) index
          ∧ (_get_instance_types env wn).1 = Ok (merged ∅ docs)).
Proof.
  intros Hfirst n rs wn Hcalls Hrs.
  assert (_instance_types (self wn) = Some ∅) as E.
  { apply (repeat_calls_still_empty env n w1 wn rs); [|exact Hcalls|exact Hrs].
    exact (get_instance_types_cached env w w1 ∅ Hfirst). }
  assert (_get_instance_types env wn = fetch_instance_types env wn) as Hmiss
    by (apply get_instance_types_miss; right; exact E).
  split; [exact Hmiss|]. rewrite Hmiss. split.
  - apply fetch_instance_types_starts.
  - intros text index docs Ht Hi Hdocs.
    rewrite (fetch_instance_types_run env wn text index docs Ht Hi Hdocs).
    cbn [fst snd log]. unfold spec_fetches, dict_values.
    rewrite map_map. split; reflexivity.
Qed.

Lemma empty_catalog_refetched_witness :
  let w2 := {| self := {| tag := "test"; _instance_types := Some ∅ |};
               log := [ HttpGet (baseurl +:+ ".yaml");
                        HttpGet (baseurl +:+ "aws.yaml");
                        HttpGet (baseurl +:+ "kvm.yaml");
                        HttpGet (baseurl +:+ ".yaml");
                        HttpGet (baseurl +:+ "aws.yaml");
                        HttpGet (baseurl +:+ "kvm.yaml") ] |} in
  log (_get_instance_types Fixture.env_empty_files w2).2
  = log w2 ++ [ HttpGet (baseurl +:+ ".yaml");
                HttpGet (baseurl +:+ "aws.yaml");
                HttpGet (baseurl +:+ "kvm.yaml") ]
  ∧ (_get_instance_types Fixture.env_empty_files w2).1 = Ok ∅.
Proof.
  intros w2.
  destruct (empty_catalog_refetched Fixture.env_empty_files Fixture.fresh
              {| self := {| tag := "test"; _instance_types := Some ∅ |};
                 log := [ HttpGet (baseurl +:+ ".yaml");
                          HttpGet (baseurl +:+ "aws.yaml");
                          HttpGet (baseurl +:+ "kvm.yaml") ] |}
              eq_refl 1 [Ok ∅] w2)
    as [_ [_ H]]; [reflexivity | repeat constructor |].
  destruct (H (baseurl +:+ ".yaml")
              [("aws", "aws.yaml"); ("kvm", "kvm.yaml")] [∅; ∅])
    as [Hlog Hres]; [reflexivity | reflexivity | reflexivity |].
  split; [exact Hlog|]. rewrite Hres. vm_compute. reflexivity.
Defined.

(** *** Merging *)

Section Merge.

Variable k : string.

Lemma merged_snoc (m0 : catalog) (docs : list catalog) (doc : catalog) :
  merged m0 (docs ++ [doc]) = doc ∪ merged m0 docs.
Proof. unfold merged. rewrite foldl_app. reflexivity. Qed.

(** The merged dict gives [k] the value of the last document that has
    it. *)
Lemma merged_lookup_last (m0 : catalog) (docs : list catalog) :
  ∀ (j : nat) (dj : catalog) (v : inst_spec),
    docs !! j = Some dj →
    dj !! k = Some v →
    (∀ (j' : nat) (d' : catalog),
        j < j' → docs !! j' = Some d' → d' !! k = None) →
    merged m0 docs !! k = Some v.
Proof.
  induction docs as [|doc docs IH] using rev_ind; intros j dj v Hj Hv Hlast.
  - rewrite lookup_nil in Hj. discriminate.
  - rewrite merged_snoc.
    destruct (decide (j = length docs)) as [->|Hne].
    + rewrite list_lookup_middle in Hj by reflexivity.
      injection Hj as ->. apply lookup_union_Some_l. exact Hv.
    + assert (j < length docs) as Hlt.
      { apply lookup_lt_Some in Hj. rewrite length_app in Hj. simpl in Hj. lia. }
      rewrite lookup_app_l in Hj by exact Hlt.
      rewrite lookup_union_r.
      * apply (IH j dj v Hj Hv). intros j' d' Hjj' Hd'.
        apply (Hlast j' d' Hjj'). apply lookup_app_l_Some. exact Hd'.
      * apply (Hlast (length docs) doc Hlt).
        apply list_lookup_middle. reflexivity.
Qed.

(** Among the documents from [j] on there is a last one that has [k]. *)
Lemma last_definer (docs : list catalog) :
  ∀ (j : nat) (dj : catalog),
    docs !! j = Some dj →
    is_Some (dj !! k) →
    ∃ (l : nat) (dl : catalog),
      (j ≤ l)%nat ∧ docs !! l = Some dl ∧ is_Some (dl !! k)
      ∧ ∀ (l' : nat) (d' : catalog),
          l < l' → docs !! l' = Some d' → d' !! k = None.
Proof.
  induction docs as [|doc docs IH] using rev_ind; intros j dj Hj Hv.
  - rewrite lookup_nil in Hj. discriminate.
  - assert ((j ≤ length docs)%nat) as Hle.
    { apply lookup_lt_Some in Hj. rewrite length_app in Hj. simpl in Hj. lia. }
    destruct (doc !! k) as [v|] eqn:Hdoc.
    + exists (length docs), doc. split; [exact Hle|].
      split; [apply list_lookup_middle; reflexivity|].
      split; [rewrite Hdoc; eexists; reflexivity|].
      intros l' d' Hl' Hd'. apply lookup_lt_Some in Hd'.
      rewrite length_app in Hd'. simpl in Hd'. lia.
    + destruct (decide (j = length docs)) as [->|Hne].
      * rewrite list_lookup_middle in Hj by reflexivity.
        injection Hj as ->. rewrite Hdoc in Hv. destruct Hv; discriminate.
      * rewrite lookup_app_l in Hj by lia.
        destruct (IH j dj Hj Hv) as (l & dl & Hjl & Hl & Hdl & Hafter).
        exists l, dl. split; [exact Hjl|].
        split; [apply lookup_app_l_Some; exact Hl|].
        split; [exact Hdl|].
        intros l' d' Hl' Hd'.
        destruct (decide (l' = length docs)) as [->|Hne'].
        -- rewrite list_lookup_middle in Hd' by reflexivity.
           injection Hd' as <-. exact Hdoc.
        -- assert (l' < length docs) as Hlt.
           { apply lookup_lt_Some in Hd'. rewrite length_app in Hd'.
             simpl in Hd'. lia. }
           rewrite lookup_app_l in Hd' by exact Hlt.
           exact (Hafter l' d' Hl' Hd').
Qed.

End Merge.

(** C6. A call that fetches, with the index and every file served: it
    returns the merged catalog, and for two files of the enumeration that
    give the same key different values, the catalog takes the key's value
    from the last file of the enumeration that has the key, which comes
    no earlier than the second of the two; when no file after the second
    has the key, that is the second file's value and not the first's. *)
Theorem catalog_last_file_wins (env : Env) (w : world) (text : string)
    (index : list (string * string)) (docs : list catalog) :
  _instance_types (self w) = None ∨ _instance_types (self w) = Some ∅ →
  requests_get_text env (log w) (baseurl +:+ ".yaml") = Ok text →
  yaml_load_index env text = Ok index →
  spec_documents env (log w ++ [HttpGet (baseurl +:+ ".yaml")])
                 (dict_values index) = Ok docs →
  ∃ (m : catalog) (w' : world),
    _get_instance_types env w = (Ok m, w')
    ∧ ∀ (i j : nat) (di dj : catalog) (k : string) (vi vj : inst_spec),
        i < j →
        docs !! i = Some di → docs !! j = Some dj →
        di !! k = Some vi → dj !! k = Some vj →
        vi ≠ vj →
        (∃ (l : nat) (dl : catalog),
            (j ≤ l)%nat ∧ docs !! l = Some dl
            ∧ is_Some (dl !! k) ∧ m !! k = dl !! k
            ∧ ∀ (l' : nat) (d' : catalog),
                l < l' → docs !! l' = Some d' → d' !! k = None)
        ∧ ((∀ (j' : nat) (d' : catalog),
               j < j' → docs !! j' = Some d' → d' !! k = None) →
           m !! k = Some vj ∧ m !! k ≠ Some vi).
Proof.
  intros Hmiss Ht Hi Hdocs.
  exists (merged ∅ docs). eexists. split.
  - rewrite (get_instance_types_miss env w Hmiss).
    apply (fetch_instance_types_run env w text index docs Ht Hi Hdocs).
  - intros i j di dj k vi vj Hij Hdi Hdj Hvi Hvj Hne. split.
    + destruct (last_definer k docs j dj Hdj) as (l & dl & Hjl & Hl & Hdl & Hafter);
        [rewrite Hvj; eexists; reflexivity|].
      exists l, dl. repeat (split; [assumption|]). split; [|exact Hafter].
      destruct Hdl as [v Hv]. rewrite Hv.
      exact (merged_lookup_last k ∅ docs l dl v Hl Hv Hafter).
    + intros Hlast.
      rewrite (merged_lookup_last k ∅ docs j dj vj Hdj Hvj Hlast).
      split; [reflexivity|]. intros H. injection H as H. apply Hne. symmetry. exact H.
Qed.

Lemma catalog_last_file_wins_witness :
  ∃ (m : catalog) (w' : world),
    _get_instance_types Fixture.env_two_files Fixture.fresh = (Ok m, w')
    ∧ m !! "small" = Some Fixture.small
    ∧ m !! "small" ≠ Some Fixture.small_1cpu.
Proof.
  destruct (catalog_last_file_wins Fixture.env_two_files Fixture.fresh
              (baseurl +:+ ".yaml")
              [("aws", "aws.yaml"); ("kvm", "kvm.yaml")]
              [ {[ "small" := Fixture.small_1cpu ]};
                {[ "small" := Fixture.small ]} ])
    as (m & w' & Hcall & Hmerge);
    [left; reflexivity | reflexivity | reflexivity | reflexivity |].
  exists m, w'. split; [exact Hcall|].
  destruct (Hmerge 0 1 {[ "small" := Fixture.small_1cpu ]}
              {[ "small" := Fixture.small ]} "small"
              Fixture.small_1cpu Fixture.small) as [_ Hlast];
    [lia | reflexivity | reflexivity | reflexivity | reflexivity | discriminate |].
  apply Hlast. intros j' d' Hj' Hd'.
  destruct j' as [|[|j']]; [lia | lia | discriminate Hd'].
Defined.

(** ** launch: resolving the instance type *)

Section Launch.

Variable env : Env.

(** The block of lines 85-89 after the catalog is in hand. *)
Lemma resolve_instance_type_unfold (instance_type : string) (w w1 : world)
    (m : catalog) :
  _get_instance_types env w = (Ok m, w1) →
  resolve_instance_type env instance_type w
  = (match m !! instance_type with
     | None => Raise (UnknownInstanceTypeError instance_type)
     | Some spec =>
         match PyNum.int (cpu spec) with
         | Ok cpus =>
             match PyNum.int (PyNum.mul (mem spec) (PInt (1024 ^ 3))) with
             | Ok mem_bytes => Ok (cpus, mem_bytes)
             | Raise e => Raise e
             end
         | Raise e => Raise e
         end
     end, w1).
Proof.
  intros Hcall. unfold resolve_instance_type. unfold_M. rewrite Hcall.
  unfold dict_contains, dict_item.
  destruct (m !! instance_type) as [spec|]; [|reflexivity]. cbn [negb].
  destruct (PyNum.int (cpu spec)); [|reflexivity].
  destruct (PyNum.int (PyNum.mul (mem spec) (PInt (1024 ^ 3)))); reflexivity.
Qed.

(** [launch] with a type name that passes the test of line 84, up to
    the end of the resolution. *)
Lemma launch_resolve_failed (image_id instance_type : string)
    (user_data name : option string) (w w1 : world) (e : exn) :
  PyStr.truthy instance_type = true →
  resolve_instance_type env instance_type w = (Raise e, w1) →
  launch env image_id (Some instance_type) user_data true name w
  = (Raise e, w1).
Proof.
  intros Htruthy Hres. unfold launch, get_tag. unfold_M.
  cbn [negb PyStr.opt_truthy default]. rewrite Htruthy.
  cbn [from_option id]. rewrite Hres. reflexivity.
Qed.

End Launch.

(** C9. When the catalog that [_get_instance_types] hands to [launch]
    has no entry of the requested name, the resolution of lines 85-87
    raises the unknown-instance-type error, and so does [launch] for a
    name that passes the test of line 84; all that was added to the log
    is the fetches of the catalog, so [subp] was not called. *)
Theorem launch_unknown_instance_type (env : Env) (image_id instance_type : string)
    (user_data name : option string) (w w1 : world) (m : catalog) :
  _get_instance_types env w = (Ok m, w1) →
  m !! instance_type = None →
  resolve_instance_type env instance_type w
  = (Raise (UnknownInstanceTypeError instance_type), w1)
  ∧ (PyStr.truthy instance_type = true →
     launch env image_id (Some instance_type) user_data true name w
     = (Raise (UnknownInstanceTypeError instance_type), w1))
  ∧ ∃ urls : list string, log w1 = log w ++ map HttpGet urls.
Proof.
  intros Hcall Habsent.
  assert (resolve_instance_type env instance_type w
          = (Raise (UnknownInstanceTypeError instance_type), w1)) as Hres.
  { rewrite (resolve_instance_type_unfold env _ w w1 m Hcall), Habsent.
    reflexivity. }
  split; [exact Hres|]. split.
  - intros Htruthy. apply launch_resolve_failed; assumption.
  - destruct (get_instance_types_log env w) as [urls Hlog].
    rewrite Hcall in Hlog. exists urls. exact Hlog.
Qed.

Lemma launch_unknown_instance_type_witness :
  launch Fixture.env0 "xenial" (Some "huge") None true None Fixture.fresh
  = (Raise (UnknownInstanceTypeError "huge"),
     {| self := {| tag := "test"; _instance_types := Some Fixture.catalog0 |};
        log := [ HttpGet (baseurl +:+ ".yaml");
                 HttpGet (baseurl +:+ "kvm.yaml") ] |}).
Proof.
  apply (proj1 (proj2 (launch_unknown_instance_type
                         Fixture.env0 "xenial" "huge" None None Fixture.fresh
                         _ Fixture.catalog0 eq_refl eq_refl))).
  reflexivity.
Defined.

(** ** Binary64: multiplying by [1024**3] is exact *)

Section Binary64.

Import Rounding.
Local Open Scope Z_scope.

Lemma iter_pos_nat {A} (f : A → A) (p : positive) :
  ∀ x, SpecFloat.iter_pos f p x = Nat.iter (Pos.to_nat p) f x.
Proof.
  induction p as [p IH|p IH|]; intros x; cbn [SpecFloat.iter_pos].
  - rewrite !IH, Pos2Nat.inj_xI, <- Nat.iter_succ_r.
    replace (S (2 * Pos.to_nat p))%nat with (Pos.to_nat p + S (Pos.to_nat p))%nat by lia.
    rewrite Nat.iter_add. reflexivity.
  - rewrite !IH, Pos2Nat.inj_xO.
    replace (2 * Pos.to_nat p)%nat with (Pos.to_nat p + Pos.to_nat p)%nat by lia.
    rewrite Nat.iter_add. reflexivity.
  - reflexivity.
Qed.

Lemma shr_1_even (m : Z) :
  0 < m →
  shr_1 {| shr_m := 2 * m; shr_r := false; shr_s := false |}
  = {| shr_m := m; shr_r := false; shr_s := false |}.
Proof. destruct m; try lia. reflexivity. Qed.

Lemma iter_shr_1_exact (n : nat) :
  ∀ m : Z, 0 < m →
    Nat.iter n shr_1 {| shr_m := m * 2 ^ Z.of_nat n; shr_r := false; shr_s := false |}
    = {| shr_m := m; shr_r := false; shr_s := false |}.
Proof.
  induction n as [|n IH]; intros m Hm.
  - simpl. rewrite Z.mul_1_r. reflexivity.
  - rewrite Nat.iter_succ_r.
    replace (m * 2 ^ Z.of_nat (S n)) with (2 * (m * 2 ^ Z.of_nat n))
      by (rewrite Nat2Z.inj_succ, Z.pow_succ_r by lia; ring).
    rewrite shr_1_even by (apply Z.mul_pos_pos; [exact Hm | apply Z.pow_pos_nonneg; lia]).
    apply IH, Hm.
Qed.

Lemma shr_exact (m e n : Z) :
  0 < m → 0 ≤ n →
  shr {| shr_m := m * 2 ^ n; shr_r := false; shr_s := false |} e n
  = ({| shr_m := m; shr_r := false; shr_s := false |}, e + n).
Proof.
  intros Hm Hn. destruct n as [|p|p]; [| |lia].
  - simpl. rewrite Z.mul_1_r, Z.add_0_r. reflexivity.
  - cbn [shr]. rewrite iter_pos_nat.
    rewrite <- (positive_nat_Z p) at 1. rewrite iter_shr_1_exact by exact Hm.
    reflexivity.
Qed.

Lemma digits2_bounds (m : positive) :
  2 ^ (Z.pos (digits2_pos m) - 1) ≤ Z.pos m < 2 ^ Z.pos (digits2_pos m).
Proof.
  induction m as [m IH|m IH|]; cbn [digits2_pos].
  - rewrite Pos2Z.inj_succ.
    replace (Z.succ (Z.pos (digits2_pos m)) - 1) with (Z.succ (Z.pos (digits2_pos m) - 1)) by lia.
    rewrite !Z.pow_succ_r by lia. lia.
  - rewrite Pos2Z.inj_succ.
    replace (Z.succ (Z.pos (digits2_pos m)) - 1) with (Z.succ (Z.pos (digits2_pos m) - 1)) by lia.
    rewrite !Z.pow_succ_r by lia. lia.
  - simpl. lia.
Qed.

Lemma digits2_unique (m : positive) (d : Z) :
  2 ^ (d - 1) ≤ Z.pos m < 2 ^ d → Z.pos (digits2_pos m) = d.
Proof.
  intros [Hlo Hhi]. pose proof (digits2_bounds m) as [Hlo' Hhi'].
  assert (0 < d) as Hd.
  { destruct (Z.lt_ge_cases 0 d) as [H|H]; [exact H|].
    assert (2 ^ d ≤ 1).
    { destruct (Z.eq_dec d 0) as [->|]; [simpl; lia|].
      rewrite Z.pow_neg_r by lia. lia. }
    lia. }
  destruct (Z.lt_trichotomy (Z.pos (digits2_pos m)) d) as [H|[H|H]]; [|exact H|].
  - assert (2 ^ Z.pos (digits2_pos m) ≤ 2 ^ (d - 1)) by (apply Z.pow_le_mono_r; lia). lia.
  - assert (2 ^ d ≤ 2 ^ (Z.pos (digits2_pos m) - 1)) by (apply Z.pow_le_mono_r; lia). lia.
Qed.

Lemma digits2_shift (m m1 : positive) (j : Z) :
  0 ≤ j → Z.pos m1 = Z.pos m * 2 ^ j →
  Z.pos (digits2_pos m1) = Z.pos (digits2_pos m) + j.
Proof.
  intros Hj Hm1. apply digits2_unique. rewrite Hm1.
  pose proof (digits2_bounds m) as [Hlo Hhi].
  replace (Z.pos (digits2_pos m) + j - 1) with (Z.pos (digits2_pos m) - 1 + j) by lia.
  rewrite !Z.pow_add_r by lia.
  assert (0 < 2 ^ j) by (apply Z.pow_pos_nonneg; lia).
  split; [apply Z.mul_le_mono_nonneg_r; lia | apply Z.mul_lt_mono_pos_r; lia].
Qed.

Lemma bounded_inv (m : positive) (e : Z) :
  bounded prec emax m e = true →
  Z.max (Z.pos (digits2_pos m) + e - 53) (-1074) = e ∧ e ≤ 971.
Proof.
  unfold bounded, canonical_mantissa, fexp, emin, prec, emax.
  rewrite andb_true_iff, Z.eqb_eq, Z.leb_le. lia.
Qed.

Lemma mul_2p30_exact (s : bool) (m : positive) (e : Z) :
  bounded prec emax m e = true → e ≤ 941 →
  ∃ (m1 : positive) (j : Z),
    0 ≤ j ∧ Z.pos m1 = Z.pos m * 2 ^ j
    ∧ SFmul prec emax (S754_finite s m e)
            (S754_finite false 4503599627370496 (-22))
      = S754_finite s m1 (e + 30 - j).
Proof.
  intros Hb He. apply bounded_inv in Hb as [Hcanon _].
  set (D := Z.pos (digits2_pos m)) in *.
  assert (1 ≤ D) as HD by (unfold D; lia).
  set (n1 := Z.max (D - 1) (-1052 - e)).
  set (j := 52 - n1).
  assert (0 ≤ n1 ∧ 0 ≤ j) as [Hn1 Hj] by (unfold j, n1; lia).
  assert (0 < Z.pos m * 2 ^ j) as Hpos
    by (apply Z.mul_pos_pos; [lia | apply Z.pow_pos_nonneg; lia]).
  set (m1 := Z.to_pos (Z.pos m * 2 ^ j)).
  assert (Z.pos m1 = Z.pos m * 2 ^ j) as Hm1 by (unfold m1; rewrite Z2Pos.id; lia).
  exists m1, j. split; [exact Hj|]. split; [exact Hm1|].
  assert (Z.pos (m * 4503599627370496) = Z.pos m * 2 ^ 52) as Hprod
    by (rewrite Pos2Z.inj_mul; reflexivity).
  assert (Z.pos (m * 4503599627370496) = Z.pos m1 * 2 ^ n1) as Hprod'.
  { rewrite Hprod, Hm1, <- Z.mul_assoc, <- Z.pow_add_r by lia.
    unfold j. do 2 f_equal. lia. }
  assert (shr_fexp 53 1024 (Z.pos (m * 4503599627370496)) (e + -22) loc_Exact
          = ({| shr_m := Z.pos m1; shr_r := false; shr_s := false |},
             e + 30 - j)) as Hfirst.
  { unfold shr_fexp. cbn [shr_record_of_loc Zdigits2].
    rewrite (digits2_shift m (m * 4503599627370496) 52) by (lia || exact Hprod).
    fold D.
    replace (fexp 53 1024 (D + 52 + (e + -22)) - (e + -22)) with n1
      by (unfold fexp, emin, n1; lia).
    rewrite Hprod', shr_exact by lia.
    f_equal. unfold j. lia. }
  assert (shr_fexp 53 1024 (Z.pos m1) (e + 30 - j) loc_Exact
          = ({| shr_m := Z.pos m1; shr_r := false; shr_s := false |},
             e + 30 - j)) as Hsecond.
  { unfold shr_fexp. cbn [shr_record_of_loc Zdigits2].
    rewrite (digits2_shift m m1 j) by (lia || exact Hm1).
    fold D.
    replace (fexp 53 1024 (D + j + (e + 30 - j)) - (e + 30 - j)) with 0
      by (unfold fexp, emin, j, n1; lia).
    reflexivity. }
  unfold prec, emax. cbn [SFmul]. rewrite xorb_false_r.
  unfold binary_round_aux. rewrite Hfirst.
  cbn [shr_m loc_of_shr_record round_nearest_even]. rewrite Hsecond.
  cbn [shr_m].
  replace (e + 30 - j <=? 1024 - 53) with true
    by (symmetry; apply Z.leb_le; lia).
  reflexivity.
Qed.


Lemma Qtrunc_comp (q q' : Q) : (q == q')%Q → Qtrunc q = Qtrunc q'.
Proof.
  intros H. unfold Qtrunc.
  rewrite (Qleb_comp 0%Q 0%Q (Qeq_refl 0) q q' H).
  rewrite (Qfloor_comp q q' H), (Qceiling_comp q q' H). reflexivity.
Qed.

Lemma Qtrunc_Z (z : Z) : Qtrunc (inject_Z z) = z.
Proof. unfold Qtrunc. rewrite Qfloor_Z, Qceiling_Z. destruct (Qle_bool _ _); reflexivity. Qed.

Lemma Qtrunc_frac (s : bool) (m d : positive) :
  Qtrunc (cond_Zopp s (Z.pos m) # d) = cond_Zopp s (Z.pos m / Z.pos d).
Proof.
  unfold Qtrunc, Qle_bool, Qceiling, Qfloor. destruct s; simpl.
  - rewrite Z.opp_involutive. reflexivity.
  - reflexivity.
Qed.

Lemma Qtrunc_scaled (s : bool) (m : positive) (e : Z) :
  Qtrunc (inject_Z (cond_Zopp s (Z.pos m)) * Qpower 2 e * inject_Z (1024 ^ 3))
  = cond_Zopp s (Z.shiftl (Z.pos m) (e + 30)).
Proof.
  assert (¬ (2 == 0)%Q) as H2 by discriminate.
  assert ((inject_Z (cond_Zopp s (Z.pos m)) * Qpower 2 e * inject_Z (1024 ^ 3)
           == inject_Z (cond_Zopp s (Z.pos m)) * Qpower 2 (e + 30))%Q) as Hx.
  { rewrite (Qpower_plus 2 e 30 H2). rewrite <- Qmult_assoc. reflexivity. }
  rewrite (Qtrunc_comp _ _ Hx). clear Hx.
  destruct (Z.le_gt_cases 0 (e + 30)) as [Ha|Ha].
  - rewrite Z.shiftl_mul_pow2 by exact Ha.
    assert ((inject_Z (cond_Zopp s (Z.pos m)) * Qpower 2 (e + 30)
             == inject_Z (cond_Zopp s (Z.pos m * 2 ^ (e + 30))))%Q) as Hx.
    { change 2%Q with (inject_Z 2). rewrite <- Zpower_Qpower by exact Ha.
      rewrite <- inject_Z_mult. destruct s; simpl; [|reflexivity].
      rewrite Z.mul_opp_l. reflexivity. }
    rewrite (Qtrunc_comp _ _ Hx). apply Qtrunc_Z.
  - set (b := - (e + 30)). assert (0 < b) as Hb by (unfold b; lia).
    replace (e + 30) with (- b) by (unfold b; lia).
    rewrite Z.shiftl_opp_r, Z.shiftr_div_pow2 by lia.
    assert (0 < 2 ^ b) as Hpow by (apply Z.pow_pos_nonneg; lia).
    assert ((inject_Z (cond_Zopp s (Z.pos m)) * Qpower 2 (- b)
             == cond_Zopp s (Z.pos m) # Z.to_pos (2 ^ b))%Q) as Hx.
    { rewrite Qpower_opp. change 2%Q with (inject_Z 2).
      rewrite <- Zpower_Qpower by lia.
      unfold Qeq, Qmult, Qinv, inject_Z. simpl.
      destruct (2 ^ b) as [|p|p] eqn:E; try lia. simpl. lia. }
    rewrite (Qtrunc_comp _ _ Hx), Qtrunc_frac, Z2Pos.id by exact Hpow.
    reflexivity.
Qed.

End Binary64.

(** ** launch: the memory size *)

Example float_1_5_value :
  ∃ q : Q, Q_of_float Fixture.float_1_5 = Some q ∧ (q == 3 # 2)%Q.
Proof. eexists. split; [reflexivity|]. vm_compute. reflexivity. Qed.

Example float_0_7_nearest :
  SFdiv prec emax (float_of_int 7) (float_of_int 10) = Fixture.float_0_7.
Proof. vm_compute. reflexivity. Qed.

(** [int(mem * 1024**3)] for a binary64 [mem] below [2^994]: the
    mantissa shifted by the exponent plus thirty, with the sign. *)
Lemma int_of_scaled_float (s : bool) (m : positive) (e : Z) :
  bounded prec emax m e = true → (e ≤ 941)%Z →
  PyNum.int (PyNum.mul (PFloat (S754_finite s m e)) (PInt (1024 ^ 3)))
  = Ok (cond_Zopp s (Z.shiftl (Z.pos m) (e + 30))).
Proof.
  intros Hb He. cbn [PyNum.int PyNum.mul].
  replace (float_of_int (1024 ^ 3))
    with (S754_finite false 4503599627370496 (-22))
    by (vm_compute; reflexivity).
  destruct (mul_2p30_exact s m e Hb He) as (m1 & j & Hj & Hm1 & ->).
  cbn [int_of_float]. rewrite Hm1, <- Z.shiftl_mul_pow2 by exact Hj.
  rewrite Z.shiftl_shiftl by exact Hj.
  do 3 f_equal. lia.
Qed.

(** C4, counterexample. With [mem: 0.7] the product is 751619276.8 and
    the code passes 751619276 on, where either rounding to a nearest
    integer gives 751619277. *)
Lemma mem_bytes_not_rounded :
  ¬ mem_bytes_rounded Rounding.round_half_even Fixture.env_fraction
  ∧ ¬ mem_bytes_rounded Rounding.round_half_up Fixture.env_fraction.
Proof.
  split; intros H;
    specialize (H "medium" Fixture.fresh _ _ Fixture.medium 1%Z
                  Fixture.float_0_7 _
                  eq_refl eq_refl eq_refl eq_refl eq_refl);
    vm_compute in H; discriminate H.
Qed.

(** C4, amended. The memory size of an entry whose [mem] is a binary64
    [v] of magnitude below [2^994] resolves to the integer part of
    [v * 1024^3], towards zero; for [mem: 1.5] that is 1610612736. *)
Theorem mem_bytes_truncated (env : Env) (name : string) (w w1 : world)
    (m : catalog) (spec : inst_spec) (cpus : Z) :
  _get_instance_types env w = (Ok m, w1) →
  m !! name = Some spec →
  PyNum.int (cpu spec) = Ok cpus →
  (∀ (s : bool) (mant : positive) (e : Z) (q : Q),
      mem spec = PFloat (S754_finite s mant e) →
      bounded prec emax mant e = true →
      (e ≤ 941)%Z →
      Q_of_float (S754_finite s mant e) = Some q →
      resolve_instance_type env name w
      = (Ok (cpus, Rounding.Qtrunc (q * inject_Z (1024 ^ 3))%Q), w1))
  ∧ (mem spec = PFloat Fixture.float_1_5 →
     resolve_instance_type env name w = (Ok (cpus, 1610612736%Z), w1)).
Proof.
  intros Hcall Hlookup Hcpu.
  assert (∀ (s : bool) (mant : positive) (e : Z),
             mem spec = PFloat (S754_finite s mant e) →
             bounded prec emax mant e = true →
             (e ≤ 941)%Z →
             resolve_instance_type env name w
             = (Ok (cpus, cond_Zopp s (Z.shiftl (Z.pos mant) (e + 30))), w1))
    as Hshift.
  { intros s mant e Hmem Hb He.
    rewrite (resolve_instance_type_unfold env name w w1 m Hcall), Hlookup, Hcpu.
    rewrite Hmem, (int_of_scaled_float s mant e Hb He). reflexivity. }
  split.
  - intros s mant e q Hmem Hb He Hq.
    rewrite (Hshift s mant e Hmem Hb He).
    injection Hq as <-. rewrite Qtrunc_scaled. reflexivity.
  - intros Hmem. unfold Fixture.float_1_5 in Hmem.
    rewrite (Hshift _ _ _ Hmem); [reflexivity | reflexivity | lia].
Qed.

Lemma mem_bytes_truncated_witness :
  let w1 := {| self := {| tag := "test";
                          _instance_types := Some Fixture.catalog0 |};
               log := [ HttpGet (baseurl +:+ ".yaml");
                        HttpGet (baseurl +:+ "kvm.yaml") ] |} in
  resolve_instance_type Fixture.env0 "small" Fixture.fresh
  = (Ok (2%Z, Rounding.Qtrunc
                (inject_Z 6755399441055744 * Qpower 2 (-52)
                 * inject_Z (1024 ^ 3))%Q), w1)
  ∧ resolve_instance_type Fixture.env0 "small" Fixture.fresh
    = (Ok (2%Z, 1610612736%Z), w1).
Proof.
  intros w1.
  destruct (mem_bytes_truncated Fixture.env0 "small" Fixture.fresh w1
              Fixture.catalog0 Fixture.small 2%Z)
    as [Hgen H15]; [reflexivity | reflexivity | reflexivity |].
  split.
  - apply (Hgen false 6755399441055744%positive (-52)%Z);
      [reflexivity | reflexivity | lia | reflexivity].
  - apply H15. reflexivity.
Defined.

(** ** More on the image methods *)

(** X1. With an accepted prefix and an answer that is not empty,
    [image_serial] looks at the first descriptor only: it returns its
    [version_name], and raises [KeyError] when that descriptor has no such
    field, whatever the descriptors after it hold. *)
Theorem image_serial_first_descriptor (env : Env) (image_id id' : string)
    (daily : bool) (w : world) (d : descriptor) (ds : list descriptor) :
  split_remote image_id = Ok (daily, id') →
  streams_answer env (log w) ["sha256=" +:+ id'] daily = Ok (d :: ds) →
  (∀ serial : string,
      d !! "version_name" = Some serial →
      (image_serial env image_id w).1 = Ok serial)
  ∧ (d !! "version_name" = None →
     (image_serial env image_id w).1 = Raise (KeyError "version_name")).
Proof.
  intros Hsplit Hanswer.
  rewrite (image_serial_after_split env _ _ _ w Hsplit), Hanswer.
  cbn [list_item0 fst]. unfold dict_item.
  split; [intros serial ->|intros ->]; reflexivity.
Qed.

Lemma image_serial_first_descriptor_witness :
  (image_serial Fixture.env0 "release:abc123" Fixture.fresh).1 = Ok "20230101"
  ∧ (image_serial Fixture.env_bare_descriptor "abc123" Fixture.fresh).1
    = Raise (KeyError "version_name").
Proof.
  split.
  - apply (proj1 (image_serial_first_descriptor
                    Fixture.env0 "release:abc123" "abc123" false Fixture.fresh
                    {[ "sha256" := "abc123"; "version_name" := "20230101" ]} []
                    eq_refl eq_refl)).
    reflexivity.
  - apply (proj2 (image_serial_first_descriptor
                    Fixture.env_bare_descriptor "abc123" "abc123" true
                    Fixture.fresh ∅ [] eq_refl eq_refl)).
    reflexivity.
Defined.

(** X2. When the descriptor that [_find_image] returns has no [sha256]
    field, [released_image] and [daily_image] raise [KeyError] after the
    query, in the world [_find_image] left. *)
Theorem image_ref_missing_hash (env : Env) (release arch : string)
    (w : world) :
  (∀ (d : descriptor) (w' : world),
      _find_image env release arch false w = (Ok d, w') →
      d !! "sha256" = None →
      released_image env release arch w = (Raise (KeyError "sha256"), w'))
  ∧ (∀ (d : descriptor) (w' : world),
        _find_image env release arch true w = (Ok d, w') →
        d !! "sha256" = None →
        daily_image env release arch w = (Raise (KeyError "sha256"), w')).
Proof.
  split; intros d w' Hfind Hnone.
  - rewrite (released_image_unfold _ _ _ _ _ _ Hfind).
    unfold dict_item. rewrite Hnone. reflexivity.
  - rewrite (daily_image_unfold _ _ _ _ _ _ Hfind).
    unfold dict_item. rewrite Hnone. reflexivity.
Qed.

Lemma image_ref_missing_hash_witness :
  (released_image Fixture.env_bare_descriptor "xenial" "amd64" Fixture.fresh).1
  = Raise (KeyError "sha256")
  ∧ (daily_image Fixture.env_bare_descriptor "xenial" "amd64" Fixture.fresh).1
    = Raise (KeyError "sha256").
Proof.
  destruct (image_ref_missing_hash Fixture.env_bare_descriptor
              "xenial" "amd64" Fixture.fresh) as [Hrel Hday].
  split.
  - rewrite (Hrel ∅ _ eq_refl eq_refl). reflexivity.
  - rewrite (Hday ∅ _ eq_refl eq_refl). reflexivity.
Defined.

(** A failure of the methods below [released_image] is its own. *)
Lemma released_image_ok_inv (env : Env) (release arch ref : string)
    (w w1 : world) :
  released_image env release arch w = (Ok ref, w1) →
  ∃ (d : descriptor) (h : string),
    _find_image env release arch false w = (Ok d, w1)
    ∧ d !! "sha256" = Some h ∧ ref = "release:" +:+ h.
Proof.
  unfold released_image. unfold_M.
  destruct (_find_image env release arch false w) as [[d|e] w'];
    [|discriminate].
  unfold dict_item. destruct (d !! "sha256") as [h|] eqn:Hh; [|discriminate].
  intros H. injection H as <- <-. exists d, h. repeat split. exact Hh.
Qed.

Lemma daily_image_ok_inv (env : Env) (release arch ref : string)
    (w w1 : world) :
  daily_image env release arch w = (Ok ref, w1) →
  ∃ (d : descriptor) (h : string),
    _find_image env release arch true w = (Ok d, w1)
    ∧ d !! "sha256" = Some h ∧ ref = "daily:" +:+ h.
Proof.
  unfold daily_image. unfold_M.
  destruct (_find_image env release arch true w) as [[d|e] w'];
    [|discriminate].
  unfold dict_item. destruct (d !! "sha256") as [h|] eqn:Hh; [|discriminate].
  intros H. injection H as <- <-. exists d, h. repeat split. exact Hh.
Qed.

(** X3. A reference that [released_image] or [daily_image] returned is
    one that [image_serial] accepts, whatever characters the hash holds:
    [image_serial] on it asks the remote the reference names for the
    [sha256] the reference carries, and never raises the unknown-remote
    error. *)
Theorem image_ref_round_trip (env : Env) (release arch ref : string)
    (w w1 w2 : world) :
  (released_image env release arch w = (Ok ref, w1) →
   ∃ h : string,
     ref = "release:" +:+ h
     ∧ split_remote ref = Ok (false, h)
     ∧ log (image_serial env ref w2).2
       = log w2 ++ [StreamsQuery ["sha256=" +:+ h] false])
  ∧ (daily_image env release arch w = (Ok ref, w1) →
     ∃ h : string,
       ref = "daily:" +:+ h
       ∧ split_remote ref = Ok (true, h)
       ∧ log (image_serial env ref w2).2
         = log w2 ++ [StreamsQuery ["sha256=" +:+ h] true]).
Proof.
  split; intros Hcall.
  - destruct (released_image_ok_inv env _ _ _ _ _ Hcall) as (d & h & _ & _ & ->).
    exists h. split; [reflexivity|].
    assert (split_remote ("release:" +:+ h) = Ok (false, h)) as Hsplit
      by (apply (split_remote_prefixed "release" h); reflexivity).
    split; [exact Hsplit|].
    rewrite (image_serial_after_split env _ _ _ w2 Hsplit). reflexivity.
  - destruct (daily_image_ok_inv env _ _ _ _ _ Hcall) as (d & h & _ & _ & ->).
    exists h. split; [reflexivity|].
    assert (split_remote ("daily:" +:+ h) = Ok (true, h)) as Hsplit
      by (apply (split_remote_prefixed "daily" h); reflexivity).
    split; [exact Hsplit|].
    rewrite (image_serial_after_split env _ _ _ w2 Hsplit). reflexivity.
Qed.

Lemma image_ref_round_trip_witness :
  ∃ h : string,
    "release:abc123" = "release:" +:+ h
    ∧ split_remote "release:abc123" = Ok (false, h)
    ∧ log (image_serial Fixture.env0 "release:abc123" Fixture.fresh).2
      = log Fixture.fresh ++ [StreamsQuery ["sha256=" +:+ h] false].
Proof.
  apply (proj1 (image_ref_round_trip Fixture.env0 "xenial" "amd64"
                  "release:abc123" Fixture.fresh
                  {| self := self Fixture.fresh;
                     log := [StreamsQuery (find_image_filters "xenial" "amd64")
                                          false] |}
                  Fixture.fresh)).
  reflexivity.
Defined.

(** ** More on the catalog *)

Section CatalogFailures.

Variable env : Env.

(** The loop when the file [f] that follows the files [pre] cannot be
    fetched or parsed: what the files before it gave stays in the
    attribute. *)
Lemma fetch_specs_fail (pre : list string) (f : string) (post : list string)
    (e : exn) :
  ∀ (w : world) (m0 : catalog) (docs : list catalog),
    _instance_types (self w) = Some m0 →
    spec_documents env (log w) pre = Ok docs →
    (requests_get_text env (log w ++ spec_fetches pre) (baseurl +:+ f) = Raise e
     ∨ ∃ text : string,
         requests_get_text env (log w ++ spec_fetches pre) (baseurl +:+ f)
         = Ok text
         ∧ yaml_load_specs env text = Raise e) →
    fetch_specs env (pre ++ f :: post) w
    = (Raise e,
       {| self := {| tag := tag (self w);
                     _instance_types := Some (merged m0 docs) |};
          log := log w ++ spec_fetches pre ++ [HttpGet (baseurl +:+ f)] |}).
Proof.
  induction pre as [|p pre IH]; intros w m0 docs Hattr Hdocs Hfail.
  - simpl in Hdocs. injection Hdocs as <-.
    cbn [spec_fetches map] in Hfail. rewrite app_nil_r in Hfail.
    cbn [app fetch_specs spec_fetches map merged foldl].
    unfold requests_get. unfold_M.
    assert ({| self := self w; log := log w ++ [HttpGet (baseurl +:+ f)] |}
            = {| self := {| tag := tag (self w); _instance_types := Some m0 |};
                 log := log w ++ [HttpGet (baseurl +:+ f)] |}) as Heta.
    { rewrite <- Hattr. destruct w as [[t it] l]. reflexivity. }
    destruct Hfail as [Hreq | (text & Hreq & Hyaml)]; rewrite Hreq.
    + rewrite Heta. reflexivity.
    + rewrite Hyaml, Heta. reflexivity.
  - simpl in Hdocs.
    destruct (requests_get_text env (log w) (baseurl +:+ p)) as [text|] eqn:Ht;
      [|discriminate].
    destruct (yaml_load_specs env text) as [doc|] eqn:Hd; [|discriminate].
    destruct (spec_documents env (log w ++ [HttpGet (baseurl +:+ p)]) pre)
      as [docs'|] eqn:Hrest; [|discriminate].
    injection Hdocs as <-.
    cbn [app fetch_specs]. unfold requests_get, update_instance_types,
      get_instance_types_attr, set_instance_types_attr. unfold_M.
    rewrite Ht, Hd. cbn [self log _instance_types tag]. rewrite Hattr.
    rewrite (IH _ (doc ∪ m0) docs'); [|reflexivity|exact Hrest|].
    + cbn [self log _instance_types tag merged foldl spec_fetches map].
      rewrite <- !app_assoc. reflexivity.
    + cbn [self log]. cbn [spec_fetches map] in Hfail.
      rewrite <- app_assoc. exact Hfail.
Qed.

End CatalogFailures.

(** X5. When the index cannot be fetched or parsed, a call that had no
    catalog to return raises that error with nothing but the fetch of the
    index logged and the object as it was: nothing is cached, and the next
    call takes the uncached path again. *)
Theorem index_failure_caches_nothing (env : Env) (w : world) (e : exn) :
  _instance_types (self w) = None ∨ _instance_types (self w) = Some ∅ →
  (requests_get_text env (log w) (baseurl +:+ ".yaml") = Raise e
   ∨ ∃ text : string,
       requests_get_text env (log w) (baseurl +:+ ".yaml") = Ok text
       ∧ yaml_load_index env text = Raise e) →
  let w1 := {| self := self w;
               log := log w ++ [HttpGet (baseurl +:+ ".yaml")] |} in
  _get_instance_types env w = (Raise e, w1)
  ∧ _get_instance_types env w1 = fetch_instance_types env w1.
Proof.
  intros Hmiss Hfail w1. split.
  - rewrite (get_instance_types_miss env w Hmiss).
    unfold fetch_instance_types, requests_get. unfold_M.
    destruct Hfail as [Hreq | (text & Hreq & Hyaml)]; rewrite Hreq;
      [|rewrite Hyaml]; reflexivity.
  - apply get_instance_types_miss. exact Hmiss.
Qed.

Lemma index_failure_caches_nothing_witness :
  _get_instance_types (Fixture.env_failing ".yaml")
    {| self := init "test"; log := [] |}
  = (Raise (ExternalError "requests"),
     {| self := init "test"; log := [HttpGet (baseurl +:+ ".yaml")] |}).
Proof.
  apply (index_failure_caches_nothing (Fixture.env_failing ".yaml")
           {| self := init "test"; log := [] |}
           (ExternalError "requests")).
  - left. reflexivity.
  - left. reflexivity.
Defined.

(** X6. When the index is served and a specification file after the
    first cannot be fetched or parsed, the call raises that error, but the
    entries of the files before it are already in the attribute. If there
    are any, every later call returns that partial catalog and fetches
    nothing: the failed file and the files after it are never asked for
    again. *)
Theorem partial_catalog_served (env : Env) (w : world) (text : string)
    (index : list (string * string)) (pre : list string) (f : string)
    (post : list string) (docs : list catalog) (e : exn) :
  _instance_types (self w) = None ∨ _instance_types (self w) = Some ∅ →
  requests_get_text env (log w) (baseurl +:+ ".yaml") = Ok text →
  yaml_load_index env text = Ok index →
  dict_values index = pre ++ f :: post →
  spec_documents env (log w ++ [HttpGet (baseurl +:+ ".yaml")]) pre = Ok docs →
  (requests_get_text env
     ((log w ++ [HttpGet (baseurl +:+ ".yaml")]) ++ spec_fetches pre)
     (baseurl +:+ f) = Raise e
   ∨ ∃ doc_text : string,
       requests_get_text env
         ((log w ++ [HttpGet (baseurl +:+ ".yaml")]) ++ spec_fetches pre)
         (baseurl +:+ f) = Ok doc_text
       ∧ yaml_load_specs env doc_text = Raise e) →
  let w1 := {| self := {| tag := tag (self w);
                          _instance_types := Some (merged ∅ docs) |};
               log := log w ++ HttpGet (baseurl +:+ ".yaml")
                            :: spec_fetches pre
                            ++ [HttpGet (baseurl +:+ f)] |} in
  _get_instance_types env w = (Raise e, w1)
  ∧ (merged ∅ docs ≠ ∅ →
     ∀ n : nat,
       repeat_calls (_get_instance_types env) n w1
       = (repeat (Ok (merged ∅ docs)) n, w1)).
Proof.
  intros Hmiss Ht Hi Hfiles Hdocs Hfail w1. split.
  - rewrite (get_instance_types_miss env w Hmiss).
    unfold fetch_instance_types, requests_get, get_instance_types_attr,
      set_instance_types_attr. unfold_M.
    rewrite Ht, Hi, Hfiles. cbn [self log _instance_types tag].
    erewrite fetch_specs_fail; [|reflexivity|exact Hdocs|exact Hfail].
    cbn [self log _instance_types tag]. unfold w1.
    rewrite <- app_assoc. reflexivity.
  - intros Hne n. apply repeat_calls_hit; [reflexivity|exact Hne].
Qed.

Lemma partial_catalog_served_witness :
  let w1 := {| self := {| tag := "test";
                          _instance_types :=
                            Some {[ "small" := Fixture.small_1cpu ]} |};
               log := [ HttpGet (baseurl +:+ ".yaml");
                        HttpGet (baseurl +:+ "aws.yaml");
                        HttpGet (baseurl +:+ "kvm.yaml") ] |} in
  _get_instance_types (Fixture.env_failing "kvm.yaml") Fixture.fresh
  = (Raise (ExternalError "requests"), w1)
  ∧ repeat_calls (_get_instance_types (Fixture.env_failing "kvm.yaml")) 2 w1
    = ([ Ok {[ "small" := Fixture.small_1cpu ]};
         Ok {[ "small" := Fixture.small_1cpu ]} ], w1).
Proof.
  intros w1.
  destruct (partial_catalog_served (Fixture.env_failing "kvm.yaml")
              Fixture.fresh (baseurl +:+ ".yaml")
              [("aws", "aws.yaml"); ("kvm", "kvm.yaml")]
              ["aws.yaml"] "kvm.yaml" []
              [ {[ "small" := Fixture.small_1cpu ]} ]
              (ExternalError "requests"))
    as [Hfirst Hlater];
    [left; reflexivity | reflexivity | reflexivity | reflexivity | reflexivity
    | left; reflexivity |].
  split.
  - exact Hfirst.
  - apply (Hlater ltac:(apply dict_truthy_nonempty; reflexivity) 2).
Defined.

Section MergeInverse.

Variable k : string.

Lemma merged_lookup_none (m0 : catalog) (docs : list catalog) :
  (∀ (j : nat) (d : catalog), docs !! j = Some d → d !! k = None) →
  merged m0 docs !! k = m0 !! k.
Proof.
  induction docs as [|doc docs IH] using rev_ind; intros Hnone; [reflexivity|].
  rewrite merged_snoc, lookup_union_r.
  - apply IH. intros j d Hj. apply (Hnone j d).
    apply lookup_app_l_Some. exact Hj.
  - apply (Hnone (length docs) doc). apply list_lookup_middle. reflexivity.
Qed.

(** A value of the merged dict is the value of the last document that has
    the key, or was there from the start. *)
Lemma merged_lookup_inv (m0 : catalog) (docs : list catalog) (v : inst_spec) :
  merged m0 docs !! k = Some v →
  (∃ (j : nat) (dj : catalog),
      docs !! j = Some dj ∧ dj !! k = Some v
      ∧ ∀ (j' : nat) (d' : catalog),
          j < j' → docs !! j' = Some d' → d' !! k = None)
  ∨ (m0 !! k = Some v
     ∧ ∀ (j : nat) (d : catalog), docs !! j = Some d → d !! k = None).
Proof.
  induction docs as [|doc docs IH] using rev_ind; intros Hm.
  - right. split; [exact Hm|]. intros j d Hj.
    rewrite lookup_nil in Hj. discriminate.
  - rewrite merged_snoc in Hm. apply lookup_union_Some_raw in Hm.
    destruct Hm as [Hdoc | [Hdoc Hm]].
    + left. exists (length docs), doc.
      split; [apply list_lookup_middle; reflexivity|].
      split; [exact Hdoc|].
      intros j' d' Hj' Hd'. apply lookup_lt_Some in Hd'.
      rewrite length_app in Hd'. simpl in Hd'. lia.
    + assert (∀ (j' : nat) (d' : catalog),
                 (docs ++ [doc]) !! j' = Some d' →
                 length docs ≤ j' → d' !! k = None)%nat as Hlast.
      { intros j' d' Hd' Hle.
        assert (j' = length docs) as ->.
        { apply lookup_lt_Some in Hd'. rewrite length_app in Hd'.
          simpl in Hd'. lia. }
        rewrite list_lookup_middle in Hd' by reflexivity.
        injection Hd' as <-. exact Hdoc. }
      destruct (IH Hm) as [(j & dj & Hj & Hv & Hafter) | [Hm0 Hnone]].
      * left. exists j, dj.
        split; [apply lookup_app_l_Some; exact Hj|].
        split; [exact Hv|].
        intros j' d' Hj' Hd'.
        destruct (decide (j' < length docs)%nat) as [Hlt|Hge].
        -- rewrite lookup_app_l in Hd' by exact Hlt.
           exact (Hafter j' d' Hj' Hd').
        -- apply (Hlast j' d' Hd'). lia.
      * right. split; [exact Hm0|].
        intros j d Hd.
        destruct (decide (j < length docs)%nat) as [Hlt|Hge].
        -- rewrite lookup_app_l in Hd by exact Hlt. exact (Hnone j d Hd).
        -- apply (Hlast j d Hd). lia.
Qed.

End MergeInverse.

(** X7. What a catalog that was fetched in full holds, and nothing else:
    a name maps to a value exactly when that value is what the last file
    of the enumeration that has the name gives it, and a name is absent
    exactly when no file has it. No entry is lost, none is made up, and no
    entry mixes the fields of two files. *)
Theorem catalog_lookup_characterised (env : Env) (w : world) (text : string)
    (index : list (string * string)) (docs : list catalog) :
  _instance_types (self w) = None ∨ _instance_types (self w) = Some ∅ →
  requests_get_text env (log w) (baseurl +:+ ".yaml") = Ok text →
  yaml_load_index env text = Ok index →
  spec_documents env (log w ++ [HttpGet (baseurl +:+ ".yaml")])
                 (dict_values index) = Ok docs →
  ∃ (m : catalog) (w' : world),
    _get_instance_types env w = (Ok m, w')
    ∧ (∀ (k : string) (v : inst_spec),
          m !! k = Some v ↔
          ∃ (j : nat) (dj : catalog),
            docs !! j = Some dj ∧ dj !! k = Some v
            ∧ ∀ (j' : nat) (d' : catalog),
                j < j' → docs !! j' = Some d' → d' !! k = None)
    ∧ (∀ k : string,
          m !! k = None ↔
          ∀ (j : nat) (d : catalog), docs !! j = Some d → d !! k = None).
Proof.
  intros Hmiss Ht Hi Hdocs.
  exists (merged ∅ docs). eexists. split.
  - rewrite (get_instance_types_miss env w Hmiss).
    apply (fetch_instance_types_run env w text index docs Ht Hi Hdocs).
  - split.
    + intros k v. split.
      * intros Hm.
        destruct (merged_lookup_inv k ∅ docs v Hm) as [H | [H _]];
          [exact H|].
        rewrite lookup_empty in H. discriminate.
      * intros (j & dj & Hj & Hv & Hafter).
        exact (merged_lookup_last k ∅ docs j dj v Hj Hv Hafter).
    + intros k. split.
      * intros Hm j d Hj.
        destruct (d !! k) as [v|] eqn:Hv; [|reflexivity].
        destruct (last_definer k docs j d Hj) as (l & dl & _ & Hl & [vl Hvl] & Hafter);
          [rewrite Hv; eexists; reflexivity|].
        rewrite (merged_lookup_last k ∅ docs l dl vl Hl Hvl Hafter) in Hm.
        discriminate.
      * intros Hnone. rewrite (merged_lookup_none k ∅ docs Hnone).
        apply lookup_empty.
Qed.

Lemma catalog_lookup_characterised_witness :
  ∃ (m : catalog) (w' : world),
    _get_instance_types Fixture.env_two_files Fixture.fresh = (Ok m, w')
    ∧ m !! "small" = Some Fixture.small
    ∧ m !! "large" = None.
Proof.
  destruct (catalog_lookup_characterised Fixture.env_two_files Fixture.fresh
              (baseurl +:+ ".yaml")
              [("aws", "aws.yaml"); ("kvm", "kvm.yaml")]
              [ {[ "small" := Fixture.small_1cpu ]};
                {[ "small" := Fixture.small ]} ])
    as (m & w' & Hcall & Hsome & Hnone);
    [left; reflexivity | reflexivity | reflexivity | reflexivity |].
  exists m, w'. split; [exact Hcall|]. split.
  - apply Hsome. exists 1, {[ "small" := Fixture.small ]}.
    split; [reflexivity|]. split; [reflexivity|].
    intros j' d' Hj' Hd'. destruct j' as [|[|j']]; [lia | lia | discriminate Hd'].
  - apply Hnone. intros j d Hd.
    destruct j as [|[|j]]; [| |discriminate Hd];
      injection Hd as <-; reflexivity.
Defined.

Section CatalogFrame.

Variable env : Env.

Lemma fetch_specs_keeps (files : list string) :
  ∀ w : world,
    tag (self (fetch_specs env files w).2) = tag (self w)
    ∧ (is_Some (_instance_types (self w)) →
       is_Some (_instance_types (self (fetch_specs env files w).2))).
Proof.
  induction files as [|f files IH]; intros w; [split; [reflexivity|auto]|].
  cbn [fetch_specs]. unfold requests_get, update_instance_types,
    get_instance_types_attr, set_instance_types_attr. unfold_M.
  destruct (requests_get_text env (log w) (baseurl +:+ f)) as [text|];
    [|split; [reflexivity|auto]].
  destruct (yaml_load_specs env text) as [doc|]; [|split; [reflexivity|auto]].
  cbn [self log _instance_types tag].
  destruct (_instance_types (self w)) as [m|];
    [|split; [reflexivity|intros [? ?]; discriminate]].
  cbn [self log _instance_types tag].
  match goal with |- context [fetch_specs env files ?w0] =>
    destruct (IH w0) as [Htag Hattr] end.
  cbn [self tag _instance_types] in Htag, Hattr.
  split; [exact Htag|]. intros _. apply Hattr. eexists. reflexivity.
Qed.

Lemma fetch_instance_types_keeps (w : world) :
  tag (self (fetch_instance_types env w).2) = tag (self w)
  ∧ (is_Some (_instance_types (self w)) →
     is_Some (_instance_types (self (fetch_instance_types env w).2))).
Proof.
  unfold fetch_instance_types, requests_get, get_instance_types_attr,
    set_instance_types_attr. unfold_M.
  destruct (requests_get_text env (log w) (baseurl +:+ ".yaml")) as [text|];
    [|split; [reflexivity|auto]].
  destruct (yaml_load_index env text) as [index|]; [|split; [reflexivity|auto]].
  match goal with |- context [fetch_specs env ?fs ?w0] =>
    destruct (fetch_specs_keeps fs w0) as [Htag Hattr];
    destruct (fetch_specs env fs w0) as [[[]|e] w1] end;
    cbn [self log tag _instance_types snd] in *.
  - assert (is_Some (_instance_types (self w1))) as [m Hm]
      by (apply Hattr; eexists; reflexivity).
    rewrite Hm. cbn [snd]. split; [exact Htag|]. intros _. rewrite Hm.
    eexists. reflexivity.
  - split; [exact Htag|]. intros _. apply Hattr. eexists. reflexivity.
Qed.

Lemma get_instance_types_keeps (w : world) :
  tag (self (_get_instance_types env w).2) = tag (self w)
  ∧ (is_Some (_instance_types (self w)) →
     is_Some (_instance_types (self (_get_instance_types env w).2))).
Proof.
  unfold _get_instance_types, get_instance_types_attr. unfold_M.
  destruct (_instance_types (self w)) as [m|] eqn:E.
  - destruct (dict_truthy m).
    + split; [reflexivity|]. intros _. cbn [snd]. rewrite E.
      eexists. reflexivity.
    + destruct (fetch_instance_types_keeps w) as [Htag Hattr].
      split; [exact Htag|]. intros _. apply Hattr. rewrite E.
      eexists. reflexivity.
  - split; [apply fetch_instance_types_keeps|]. intros [? ?]. discriminate.
Qed.

End CatalogFrame.

(** X8. What [_get_instance_types] leaves alone, whatever the outcome:
    the tag is kept, a dict in the attribute is never replaced by [None],
    and all that is added to the log is fetches; none when the attribute
    held a dict that is not empty, and otherwise the index first. No
    streams query and no command comes from it. *)
Theorem get_instance_types_frame (env : Env) (w : world) :
  let w' := (_get_instance_types env w).2 in
  tag (self w') = tag (self w)
  ∧ (is_Some (_instance_types (self w)) → is_Some (_instance_types (self w')))
  ∧ (∀ m : catalog,
        _instance_types (self w) = Some m → m ≠ ∅ → w' = w)
  ∧ (_instance_types (self w) = None ∨ _instance_types (self w) = Some ∅ →
     ∃ urls : list string,
       log w' = log w ++ HttpGet (baseurl +:+ ".yaml") :: map HttpGet urls).
Proof.
  cbv zeta. split; [|split; [|split]].
  - apply get_instance_types_keeps.
  - apply get_instance_types_keeps.
  - intros m E Hm. rewrite (get_instance_types_hit env w m E Hm). reflexivity.
  - intros Hmiss. rewrite (get_instance_types_miss env w Hmiss).
    apply fetch_instance_types_starts.
Qed.

Lemma get_instance_types_frame_witness :
  ∃ urls : list string,
    log (_get_instance_types Fixture.env0
           {| self := init "test"; log := [] |}).2
    = [] ++ HttpGet (baseurl +:+ ".yaml") :: map HttpGet urls.
Proof.
  apply (proj2 (proj2 (proj2 (get_instance_types_frame
                                Fixture.env0
                                {| self := init "test"; log := [] |})))).
  left. reflexivity.
Defined.

(** ** More on launch *)

Section LaunchShape.

Variable env : Env.

(** [user_data_args] leaves the world as it is; it gives either no
    argument and no input, or the two arguments and an input. *)
Lemma user_data_args_inv (user_data : option string) (w : world) :
  (user_data_args env user_data w).2 = w
  ∧ ((PyStr.opt_truthy user_data = false
      ∧ (user_data_args env user_data w).1 = Ok ([], None))
     ∨ ∃ u : string,
         user_data = Some u ∧ PyStr.truthy u = true
         ∧ ((os_path_isfile env (log w) u = false
             ∧ (user_data_args env user_data w).1
               = Ok (["--cloud-init"; "-"], Some u))
            ∨ (os_path_isfile env (log w) u = true
               ∧ ∃ data : string,
                   file_read env (log w) u = Ok data
                   ∧ (user_data_args env user_data w).1
                     = Ok (["--cloud-init"; "-"], Some data))
            ∨ (os_path_isfile env (log w) u = true
               ∧ ∃ e : exn,
                   file_read env (log w) u = Raise e
                   ∧ (user_data_args env user_data w).1 = Raise e))).
Proof.
  unfold user_data_args. unfold_M.
  destruct user_data as [u|]; [|split; [reflexivity|left; split; reflexivity]].
  destruct (PyStr.truthy u) eqn:Hu;
    [|split; [reflexivity|left; split; [exact Hu|reflexivity]]].
  destruct (os_path_isfile env (log w) u) eqn:Hfile.
  - destruct (file_read env (log w) u) as [data|e] eqn:Hread.
    + split; [reflexivity|]. right. exists u.
      split; [reflexivity|]. split; [exact Hu|].
      right. left. split; [exact Hfile|]. exists data.
      split; [exact Hread|reflexivity].
    + split; [reflexivity|]. right. exists u.
      split; [reflexivity|]. split; [exact Hu|].
      right. right. split; [exact Hfile|]. exists e.
      split; [exact Hread|reflexivity].
  - split; [reflexivity|]. right. exists u.
    split; [reflexivity|]. split; [exact Hu|].
    left. split; [exact Hfile|reflexivity].
Qed.

(** The resolution leaves the world that the catalog call left. *)
Lemma resolve_instance_type_world (instance_type : string) (w : world) :
  (resolve_instance_type env instance_type w).2
  = (_get_instance_types env w).2.
Proof.
  unfold resolve_instance_type. unfold_M.
  destruct (_get_instance_types env w) as [[m|e] w1]; [|reflexivity].
  unfold dict_contains, dict_item.
  destruct (m !! instance_type) as [spec|]; [|reflexivity]. cbn [negb].
  destruct (PyNum.int (cpu spec)); [|reflexivity].
  destruct (PyNum.int (PyNum.mul (mem spec) (PInt (1024 ^ 3)))); reflexivity.
Qed.

Lemma resolve_instance_type_frame (instance_type : string) (w : world) :
  tag (self (resolve_instance_type env instance_type w).2) = tag (self w)
  ∧ ∃ urls : list string,
      log (resolve_instance_type env instance_type w).2
      = log w ++ map HttpGet urls.
Proof.
  rewrite resolve_instance_type_world. split.
  - apply get_instance_types_keeps.
  - apply get_instance_types_log.
Qed.

End LaunchShape.

(** [launch] with [wait=False] raises [ValueError] before anything else
    happens. *)
Lemma launch_no_wait (env : Env) (image_id : string)
    (instance_type user_data name : option string) (w : world) :
  launch env image_id instance_type user_data false name w
  = (Raise (ValueError "KVM launch cannot be called with wait=False"), w).
Proof. reflexivity. Qed.

(** X9. Whatever its arguments and its outcome, [launch] keeps the tag
    and adds to the log the fetches of the catalog, if any, and after them
    at most one command. It issues no streams query, and nothing after the
    command. *)
Theorem launch_at_most_one_command (env : Env) (image_id : string)
    (instance_type user_data name : option string) (wait : bool)
    (w : world) :
  let w' := (launch env image_id instance_type user_data wait name w).2 in
  tag (self w') = tag (self w)
  ∧ ∃ urls : list string,
      log w' = log w ++ map HttpGet urls
      ∨ ∃ (cmd : list string) (data : option string),
          log w' = log w ++ map HttpGet urls ++ [Subp cmd data].
Proof.
  cbv zeta. destruct wait;
    [|split; [reflexivity|exists []; left; simpl; rewrite app_nil_r; reflexivity]].
  unfold launch, get_tag, subp. unfold_M. cbn [negb].
  destruct (PyStr.opt_truthy instance_type).
  - destruct (resolve_instance_type_frame env (default "" instance_type) w)
      as [Htag [urls Hlog]].
    destruct (resolve_instance_type env (default "" instance_type) w)
      as [[[cpus mem_bytes]|e] w1]; cbn [snd] in Htag, Hlog;
      [|split; [exact Htag|exists urls; left; exact Hlog]].
    destruct (user_data_args_inv env user_data w1) as [Hw _].
    destruct (user_data_args env user_data w1) as [[[extra data]|e] w2];
      cbn [snd] in Hw; subst w2;
      [|split; [exact Htag|exists urls; left; exact Hlog]].
    match goal with |- context [subp_answer env ?l ?c ?d] =>
      destruct (subp_answer env l c d) as [[]|e] end;
      (split; [exact Htag|]; exists urls; right; do 2 eexists;
       cbn [snd log]; rewrite Hlog, <- app_assoc; reflexivity).
  - destruct (user_data_args_inv env user_data w) as [Hw _].
    destruct (user_data_args env user_data w) as [[[extra data]|e] w2];
      cbn [snd] in Hw; subst w2;
      [|split; [reflexivity|exists []; left; simpl; rewrite app_nil_r; reflexivity]].
    match goal with |- context [subp_answer env ?l ?c ?d] =>
      destruct (subp_answer env l c d) as [[]|e] end;
      (split; [reflexivity|]; exists []; right; do 2 eexists;
       cbn [snd log map app]; reflexivity).
Qed.

(** What [user_data_args] returned, read back from a successful result. *)
Lemma user_data_args_ok (env : Env) (user_data : option string) (w w2 : world)
    (extra : list string) (data : option string) :
  user_data_args env user_data w = (Ok (extra, data), w2) →
  w2 = w
  ∧ ((PyStr.opt_truthy user_data = false ∧ extra = [] ∧ data = None)
     ∨ ∃ u d : string,
         user_data = Some u ∧ PyStr.truthy u = true
         ∧ extra = ["--cloud-init"; "-"] ∧ data = Some d
         ∧ ((os_path_isfile env (log w) u = false ∧ d = u)
            ∨ (os_path_isfile env (log w) u = true
               ∧ file_read env (log w) u = Ok d))).
Proof.
  intros H. destruct (user_data_args_inv env user_data w) as [Hw Hshape].
  rewrite H in Hw, Hshape. cbn [fst snd] in Hw, Hshape.
  split; [exact Hw|].
  destruct Hshape as [[Hfalse Hr] | (u & -> & Hu & Hcases)].
  - left. injection Hr as -> ->. repeat split. exact Hfalse.
  - right.
    destruct Hcases as [[Hfile Hr] | [(Hfile & d & Hread & Hr) | (_ & e & _ & Hr)]];
      [| |discriminate Hr].
    + injection Hr as -> ->. exists u, u.
      split; [reflexivity|]. split; [exact Hu|].
      split; [reflexivity|]. split; [reflexivity|]. left. split; [exact Hfile|reflexivity].
    + injection Hr as -> ->. exists u, d.
      split; [reflexivity|]. split; [exact Hu|].
      split; [reflexivity|]. split; [reflexivity|]. right. split; assumption.
Qed.

(** X10. A [launch] that returns has issued exactly one command, as the
    last event and after the fetches of the catalog, and that command is
    [multipass launch --name n], then [--cpus] and [--mem] with the
    resolved numbers when an instance type was given, then the image id,
    with [daily:] before it when it had no colon, then [--cloud-init -]
    when user data was given. The name [n] is the [name] argument, or the
    tag when there is none, and it is the name of the instance returned.
    The command has a standard input exactly when it has [--cloud-init -]:
    the content of the file when the user data is the path of a file, and
    the user data itself otherwise. *)
Theorem launch_ok_command (env : Env) (image_id : string)
    (instance_type user_data name : option string) (wait : bool)
    (w w' : world) (inst : KVMInstance) :
  launch env image_id instance_type user_data wait name w = (Ok inst, w') →
  let image := if PyStr.contains ":" image_id then image_id
               else "daily:" +:+ image_id in
  wait = true
  ∧ ((PyStr.opt_truthy name = true ∧ name = Some (instance_name inst))
     ∨ (PyStr.opt_truthy name = false ∧ instance_name inst = tag (self w)))
  ∧ ∃ (urls type_args extra : list string) (data : option string),
      log w' = log w ++ map HttpGet urls
                     ++ [Subp (["multipass"; "launch"; "--name";
                                instance_name inst]
                               ++ type_args ++ [image] ++ extra) data]
      ∧ ((PyStr.opt_truthy instance_type = false
          ∧ type_args = [] ∧ urls = [])
         ∨ ∃ (t : string) (cpus mem_bytes : Z),
             instance_type = Some t
             ∧ (resolve_instance_type env t w).1 = Ok (cpus, mem_bytes)
             ∧ type_args = ["--cpus"; PyNum.str cpus;
                            "--mem"; PyNum.str mem_bytes])
      ∧ ((PyStr.opt_truthy user_data = false ∧ extra = [] ∧ data = None)
         ∨ ∃ u d : string,
             user_data = Some u ∧ PyStr.truthy u = true
             ∧ extra = ["--cloud-init"; "-"] ∧ data = Some d
             ∧ ((os_path_isfile env (log w ++ map HttpGet urls) u = false
                 ∧ d = u)
                ∨ (os_path_isfile env (log w ++ map HttpGet urls) u = true
                   ∧ file_read env (log w ++ map HttpGet urls) u = Ok d))).
Proof.
  intros H image. destruct wait; [|discriminate H]. split; [reflexivity|].
  unfold launch, get_tag, subp in H. unfold_M. cbn [negb] in H.
  set (n := if PyStr.opt_truthy name then default (tag (self w)) name
            else tag (self w)) in H.
  assert ((PyStr.opt_truthy name = true ∧ name = Some n)
          ∨ (PyStr.opt_truthy name = false ∧ n = tag (self w))) as Hname.
  { unfold n. destruct name as [s|]; [|right; split; reflexivity].
    cbn [PyStr.opt_truthy]. destruct (PyStr.truthy s);
      [left|right]; split; reflexivity. }
  assert ((if negb (PyStr.contains ":" image_id)
           then _daily_remote +:+ ":" +:+ image_id else image_id) = image)
    as Himage by (unfold image; destruct (PyStr.contains ":" image_id); reflexivity).
  rewrite Himage in H. clear Himage.
  destruct (PyStr.opt_truthy instance_type) eqn:Htype.
  - destruct instance_type as [t|]; [|discriminate Htype].
    cbn [default from_option id] in H.
    destruct (resolve_instance_type_frame env t w) as [_ [urls Hlog]].
    destruct (resolve_instance_type env t w) as [[[cpus mem_bytes]|e] w1] eqn:Hres;
      [|discriminate H]. cbn [snd] in Hlog.
    destruct (user_data_args env user_data w1) as [[[extra data]|e] w2] eqn:Hud;
      [|discriminate H].
    destruct (user_data_args_ok env _ _ _ _ _ Hud) as [-> Hshape].
    match type of H with context [subp_answer env ?l ?c ?d] =>
      destruct (subp_answer env l c d) as [[]|e] end; [|discriminate H].
    injection H as <- <-. cbn [instance_name log].
    split; [exact Hname|].
    exists urls, ["--cpus"; PyNum.str cpus; "--mem"; PyNum.str mem_bytes],
      extra, data.
    split; [rewrite Hlog, <- !app_assoc; reflexivity|].
    split.
    { right. exists t, cpus, mem_bytes.
      split; [reflexivity|]. split; [rewrite Hres|]; reflexivity. }
    rewrite <- Hlog. exact Hshape.
  - destruct (user_data_args env user_data w) as [[[extra data]|e] w2] eqn:Hud;
      [|discriminate H].
    destruct (user_data_args_ok env _ _ _ _ _ Hud) as [-> Hshape].
    match type of H with context [subp_answer env ?l ?c ?d] =>
      destruct (subp_answer env l c d) as [[]|e] end; [|discriminate H].
    injection H as <- <-. cbn [instance_name log].
    split; [exact Hname|].
    exists [], [], extra, data. cbn [map]. rewrite app_nil_r.
    split; [reflexivity|].
    split; [left; split; [reflexivity|split; reflexivity]|].
    exact Hshape.
Qed.

Lemma launch_ok_command_witness :
  ∃ (urls type_args extra : list string) (data : option string),
    [ HttpGet (baseurl +:+ ".yaml"); HttpGet (baseurl +:+ "kvm.yaml");
      Subp ["multipass"; "launch"; "--name"; "test"; "--cpus"; "2";
            "--mem"; "1610612736"; "daily:xenial"; "--cloud-init"; "-"]
           (Some "#cloud-config") ]
    = [] ++ map HttpGet urls
         ++ [Subp (["multipass"; "launch"; "--name"; "test"]
                   ++ type_args ++ ["daily:xenial"] ++ extra) data]
    ∧ ((PyStr.opt_truthy (Some "small") = false ∧ type_args = [] ∧ urls = [])
       ∨ ∃ (t : string) (cpus mem_bytes : Z),
           Some "small" = Some t
           ∧ (resolve_instance_type Fixture.env_seed_file t Fixture.fresh).1
             = Ok (cpus, mem_bytes)
           ∧ type_args = ["--cpus"; PyNum.str cpus;
                          "--mem"; PyNum.str mem_bytes])
    ∧ ((PyStr.opt_truthy (Some "/tmp/seed.yaml") = false
        ∧ extra = [] ∧ data = None)
       ∨ ∃ u d : string,
           Some "/tmp/seed.yaml" = Some u ∧ PyStr.truthy u = true
           ∧ extra = ["--cloud-init"; "-"] ∧ data = Some d
           ∧ ((os_path_isfile Fixture.env_seed_file ([] ++ map HttpGet urls) u
               = false ∧ d = u)
              ∨ (os_path_isfile Fixture.env_seed_file ([] ++ map HttpGet urls) u
                 = true
                 ∧ file_read Fixture.env_seed_file ([] ++ map HttpGet urls) u
                   = Ok d))).
Proof.
  apply (proj2 (proj2 (launch_ok_command
                         Fixture.env_seed_file "xenial" (Some "small")
                         (Some "/tmp/seed.yaml") None true Fixture.fresh
                         {| self := {| tag := "test";
                                       _instance_types := Some Fixture.catalog0 |};
                            log := [ HttpGet (baseurl +:+ ".yaml");
                                     HttpGet (baseurl +:+ "kvm.yaml");
                                     Subp ["multipass"; "launch"; "--name"; "test";
                                           "--cpus"; "2"; "--mem"; "1610612736";
                                           "daily:xenial"; "--cloud-init"; "-"]
                                          (Some "#cloud-config") ] |}
                         {| instance_name := "test" |}
                         ltac:(vm_compute; reflexivity)))).
Defined.

(** ** More on the numbers of an instance type *)

Section Conversions.

Import Rounding.
Local Open Scope Z_scope.

(** [int] of a finite float is the integer part of its value, towards
    zero. *)
Lemma Qtrunc_float (s : bool) (m : positive) (e : Z) :
  Qtrunc (inject_Z (cond_Zopp s (Z.pos m)) * Qpower 2 e)
  = cond_Zopp s (Z.shiftl (Z.pos m) e).
Proof.
  destruct (Z.le_gt_cases 0 e) as [Ha|Ha].
  - rewrite Z.shiftl_mul_pow2 by exact Ha.
    assert ((inject_Z (cond_Zopp s (Z.pos m)) * Qpower 2 e
             == inject_Z (cond_Zopp s (Z.pos m * 2 ^ e)))%Q) as Hx.
    { change 2%Q with (inject_Z 2). rewrite <- Zpower_Qpower by exact Ha.
      rewrite <- inject_Z_mult. destruct s; simpl; [|reflexivity].
      rewrite Z.mul_opp_l. reflexivity. }
    rewrite (Qtrunc_comp _ _ Hx). apply Qtrunc_Z.
  - set (b := - e). assert (0 < b) as Hb by (unfold b; lia).
    replace e with (- b) by (unfold b; lia).
    rewrite Z.shiftl_opp_r, Z.shiftr_div_pow2 by lia.
    assert (0 < 2 ^ b) as Hpow by (apply Z.pow_pos_nonneg; lia).
    assert ((inject_Z (cond_Zopp s (Z.pos m)) * Qpower 2 (- b)
             == cond_Zopp s (Z.pos m) # Z.to_pos (2 ^ b))%Q) as Hx.
    { rewrite Qpower_opp. change 2%Q with (inject_Z 2).
      rewrite <- Zpower_Qpower by lia.
      unfold Qeq, Qmult, Qinv, inject_Z. simpl.
      destruct (2 ^ b) as [|p|p] eqn:E; try lia. simpl. lia. }
    rewrite (Qtrunc_comp _ _ Hx), Qtrunc_frac, Z2Pos.id by exact Hpow.
    reflexivity.
Qed.

Lemma int_of_float_trunc (f : spec_float) (q : Q) :
  Q_of_float f = Some q → int_of_float f = Ok (Qtrunc q).
Proof.
  destruct f as [s|s| |s m e]; try discriminate; intros H; injection H as <-.
  - reflexivity.
  - cbn [int_of_float]. rewrite Qtrunc_float. reflexivity.
Qed.

(** The integer part of a rational strictly between [-1] and [1]. *)
Lemma Qtrunc_small (q : Q) : (-1 < q)%Q → (q < 1)%Q → Qtrunc q = 0.
Proof.
  intros Hlo Hhi. unfold Qtrunc.
  destruct (Qle_bool 0 q) eqn:Hsign.
  - apply Qle_bool_iff in Hsign.
    pose proof (Qfloor_le q) as Hfl.
    assert (0 ≤ Qfloor q).
    { change 0 with (Qfloor (inject_Z 0)). apply Qfloor_resp_le. exact Hsign. }
    assert (Qfloor q < 1).
    { rewrite Zlt_Qlt. apply (Qle_lt_trans _ q); assumption. }
    lia.
  - assert (q < 0)%Q as Hneg.
    { apply Qnot_le_lt. intros Hle. apply Qle_bool_iff in Hle. congruence. }
    pose proof (Qle_ceiling q) as Hce.
    assert (Qceiling q ≤ 0).
    { change 0 with (Qceiling (inject_Z 0)). apply Qceiling_resp_le.
      apply Qlt_le_weak. exact Hneg. }
    assert (-1 < Qceiling q).
    { rewrite Zlt_Qlt. apply (Qlt_le_trans _ q); assumption. }
    lia.
Qed.

(** The product by [1024**3] of a binary64 of magnitude [2^994] or more
    is an infinity. *)
Lemma mul_2p30_overflow (s : bool) (m : positive) (e : Z) :
  bounded prec emax m e = true → 941 < e →
  SFmul prec emax (S754_finite s m e)
        (S754_finite false 4503599627370496 (-22))
  = S754_infinity s.
Proof.
  intros Hb He. apply bounded_inv in Hb as [Hcanon _].
  set (D := Z.pos (digits2_pos m)) in *.
  assert (D = 53) as HD by lia.
  assert (Z.pos (m * 4503599627370496) = Z.pos m * 2 ^ 52) as Hprod
    by (rewrite Pos2Z.inj_mul; reflexivity).
  assert (shr_fexp 53 1024 (Z.pos (m * 4503599627370496)) (e + -22) loc_Exact
          = ({| shr_m := Z.pos m; shr_r := false; shr_s := false |},
             e + -22 + 52)) as Hfirst.
  { unfold shr_fexp. cbn [shr_record_of_loc Zdigits2].
    rewrite (digits2_shift m (m * 4503599627370496) 52) by (lia || exact Hprod).
    fold D.
    replace (fexp 53 1024 (D + 52 + (e + -22)) - (e + -22)) with 52
      by (unfold fexp, emin; lia).
    rewrite Hprod, shr_exact by lia. reflexivity. }
  assert (shr_fexp 53 1024 (Z.pos m) (e + -22 + 52) loc_Exact
          = ({| shr_m := Z.pos m; shr_r := false; shr_s := false |},
             e + -22 + 52)) as Hsecond.
  { unfold shr_fexp. cbn [shr_record_of_loc Zdigits2]. fold D.
    replace (fexp 53 1024 (D + (e + -22 + 52)) - (e + -22 + 52)) with 0
      by (unfold fexp, emin; lia).
    reflexivity. }
  unfold prec, emax. cbn [SFmul]. rewrite xorb_false_r.
  unfold binary_round_aux. rewrite Hfirst.
  cbn [shr_m loc_of_shr_record round_nearest_even]. rewrite Hsecond.
  cbn [shr_m].
  replace (e + -22 + 52 <=? 1024 - 53) with false
    by (symmetry; apply Z.leb_gt; lia).
  reflexivity.
Qed.

End Conversions.

(** X11. The cpu count that the resolution passes on for an entry whose
    [cpu] is a float is the integer part of that float, towards zero: a
    type with less than one cpu, such as [cpu: 0.2], is resolved to
    [--cpus 0]. *)
Theorem cpu_count_truncated (env : Env) (name : string) (w w1 : world)
    (m : catalog) (spec : inst_spec) (f : spec_float) (q : Q)
    (mem_bytes : Z) :
  _get_instance_types env w = (Ok m, w1) →
  m !! name = Some spec →
  cpu spec = PFloat f →
  Q_of_float f = Some q →
  PyNum.int (PyNum.mul (mem spec) (PInt (1024 ^ 3))) = Ok mem_bytes →
  resolve_instance_type env name w
  = (Ok (Rounding.Qtrunc q, mem_bytes), w1)
  ∧ ((-1 < q)%Q → (q < 1)%Q →
     resolve_instance_type env name w = (Ok (0%Z, mem_bytes), w1)).
Proof.
  intros Hcall Hlookup Hcpu Hq Hmem.
  assert (resolve_instance_type env name w
          = (Ok (Rounding.Qtrunc q, mem_bytes), w1)) as Hres.
  { rewrite (resolve_instance_type_unfold env name w w1 m Hcall), Hlookup.
    rewrite Hcpu. cbn [PyNum.int].
    rewrite (int_of_float_trunc f q Hq), Hmem. reflexivity. }
  split; [exact Hres|].
  intros Hlo Hhi. rewrite Hres, (Qtrunc_small q Hlo Hhi). reflexivity.
Qed.

Lemma cpu_count_truncated_witness :
  (resolve_instance_type Fixture.env_odd_types "micro" Fixture.fresh).1
  = Ok (0%Z, 751619276%Z).
Proof.
  destruct (cpu_count_truncated Fixture.env_odd_types "micro" Fixture.fresh
              _ _ Fixture.micro Fixture.float_0_2 _ 751619276%Z
              eq_refl eq_refl eq_refl eq_refl eq_refl) as [_ Hzero].
  rewrite Hzero; [reflexivity| |]; vm_compute; reflexivity.
Defined.

(** X12. An entry whose [mem] is an infinity, or a binary64 of magnitude
    [2^994] or more, makes the resolution raise [OverflowError], and one
    whose [mem] is a NaN makes it raise [ValueError]; [launch] with that
    type raises the same in the world the catalog call left, before any
    command. *)
Theorem mem_not_convertible (env : Env) (image_id name : string)
    (user_data instance_name : option string) (w w1 : world) (m : catalog)
    (spec : inst_spec) (cpus : Z) :
  _get_instance_types env w = (Ok m, w1) →
  m !! name = Some spec →
  PyNum.int (cpu spec) = Ok cpus →
  PyStr.truthy name = true →
  ((∃ s : bool, mem spec = PFloat (S754_infinity s))
   ∨ (∃ (s : bool) (mant : positive) (e : Z),
         mem spec = PFloat (S754_finite s mant e)
         ∧ bounded prec emax mant e = true ∧ (941 < e)%Z) →
   resolve_instance_type env name w = (Raise OverflowError, w1)
   ∧ launch env image_id (Some name) user_data true instance_name w
     = (Raise OverflowError, w1))
  ∧ (mem spec = PFloat S754_nan →
     resolve_instance_type env name w
     = (Raise (ValueError "cannot convert float NaN to integer"), w1)
     ∧ launch env image_id (Some name) user_data true instance_name w
       = (Raise (ValueError "cannot convert float NaN to integer"), w1)).
Proof.
  intros Hcall Hlookup Hcpu Htruthy.
  assert (∀ e : exn,
             PyNum.int (PyNum.mul (mem spec) (PInt (1024 ^ 3))) = Raise e →
             resolve_instance_type env name w = (Raise e, w1)
             ∧ launch env image_id (Some name) user_data true instance_name w
               = (Raise e, w1)) as Hraise.
  { intros e He.
    assert (resolve_instance_type env name w = (Raise e, w1)) as Hres.
    { rewrite (resolve_instance_type_unfold env name w w1 m Hcall), Hlookup.
      rewrite Hcpu, He. reflexivity. }
    split; [exact Hres|]. apply launch_resolve_failed; assumption. }
  assert (float_of_int (1024 ^ 3) = S754_finite false 4503599627370496 (-22))
    as H2p30 by (vm_compute; reflexivity).
  split.
  - intros [[s Hmem] | (s & mant & e & Hmem & Hb & He)];
      apply Hraise; rewrite Hmem; cbn [PyNum.int PyNum.mul]; rewrite H2p30.
    + reflexivity.
    + rewrite (mul_2p30_overflow s mant e Hb He). reflexivity.
  - intros Hmem. apply Hraise. rewrite Hmem. reflexivity.
Qed.

Lemma mem_not_convertible_witness :
  (launch Fixture.env_odd_types "xenial" (Some "endless") None true None
          Fixture.fresh).1
  = Raise OverflowError
  ∧ log (launch Fixture.env_odd_types "xenial" (Some "endless") None true None
                Fixture.fresh).2
    = [ HttpGet (baseurl +:+ ".yaml"); HttpGet (baseurl +:+ "gce.yaml") ].
Proof.
  destruct (mem_not_convertible Fixture.env_odd_types "xenial" "endless"
              None None Fixture.fresh _ _ Fixture.endless 1%Z
              eq_refl eq_refl eq_refl eq_refl)
    as [Hinf _].
  destruct Hinf as [_ Hlaunch]; [left; exists false; reflexivity|].
  rewrite Hlaunch. split; reflexivity.
Defined.

(** ** Launching with a catalog at hand, and what the image methods log *)

(** X13. Once the attribute holds a catalog that is not empty, [launch]
    fetches nothing any more: with or without an instance type, and
    whatever its outcome, all it can add to the log is its one command,
    and the catalog stays as it was. *)
Theorem launch_with_catalog_fetches_nothing (env : Env) (image_id : string)
    (instance_type user_data name : option string) (wait : bool)
    (w : world) (m : catalog) :
  _instance_types (self w) = Some m →
  m ≠ ∅ →
  let w' := (launch env image_id instance_type user_data wait name w).2 in
  self w' = self w
  ∧ (log w' = log w
     ∨ ∃ (cmd : list string) (data : option string),
         log w' = log w ++ [Subp cmd data]).
Proof.
  intros Hattr Hm. cbv zeta.
  destruct wait; [|split; [reflexivity|left; reflexivity]].
  assert (∀ t : string, (resolve_instance_type env t w).2 = w) as Hres.
  { intros t. rewrite resolve_instance_type_world.
    rewrite (get_instance_types_hit env w m Hattr Hm). reflexivity. }
  unfold launch, get_tag, subp. unfold_M. cbn [negb].
  destruct (PyStr.opt_truthy instance_type).
  - specialize (Hres (default "" instance_type)).
    destruct (resolve_instance_type env (default "" instance_type) w)
      as [[[cpus mem_bytes]|e] w1]; cbn [snd] in Hres; subst w1;
      [|split; [reflexivity|left; reflexivity]].
    destruct (user_data_args_inv env user_data w) as [Hw _].
    destruct (user_data_args env user_data w) as [[[extra data]|e] w2];
      cbn [snd] in Hw; subst w2;
      [|split; [reflexivity|left; reflexivity]].
    match goal with |- context [subp_answer env ?l ?c ?d] =>
      destruct (subp_answer env l c d) as [[]|e] end;
      (split; [reflexivity|right; do 2 eexists; reflexivity]).
  - destruct (user_data_args_inv env user_data w) as [Hw _].
    destruct (user_data_args env user_data w) as [[[extra data]|e] w2];
      cbn [snd] in Hw; subst w2;
      [|split; [reflexivity|left; reflexivity]].
    match goal with |- context [subp_answer env ?l ?c ?d] =>
      destruct (subp_answer env l c d) as [[]|e] end;
      (split; [reflexivity|right; do 2 eexists; reflexivity]).
Qed.

Lemma launch_with_catalog_fetches_nothing_witness :
  let w := {| self := {| tag := "test";
                         _instance_types := Some Fixture.catalog0 |};
              log := [ HttpGet (baseurl +:+ ".yaml");
                       HttpGet (baseurl +:+ "kvm.yaml") ] |} in
  self (launch Fixture.env0 "xenial" (Some "small") None true None w).2
  = self w
  ∧ (log (launch Fixture.env0 "xenial" (Some "small") None true None w).2
     = log w
     ∨ ∃ (cmd : list string) (data : option string),
         log (launch Fixture.env0 "xenial" (Some "small") None true None w).2
         = log w ++ [Subp cmd data]).
Proof.
  intros w.
  apply (launch_with_catalog_fetches_nothing Fixture.env0 "xenial"
           (Some "small") None None true w Fixture.catalog0).
  - reflexivity.
  - apply dict_truthy_nonempty. reflexivity.
Defined.

(** X14. [released_image] and [daily_image] leave the object alone and
    log exactly one event whether they succeed or fail: the query with the
    four filters, on the release remote for the first and on the daily
    remote for the second. An exception of the streams query comes out of
    them unchanged. *)
Theorem image_ref_queries (env : Env) (release arch : string) (w : world) :
  let filters := [ "datatype=image-downloads"; "ftype=disk1.img";
                   "arch=" +:+ arch; "release=" +:+ release ] in
  ((released_image env release arch w).2
   = {| self := self w; log := log w ++ [StreamsQuery filters false] |}
   ∧ ∀ e : exn,
       streams_answer env (log w) filters false = Raise e →
       (released_image env release arch w).1 = Raise e)
  ∧ ((daily_image env release arch w).2
     = {| self := self w; log := log w ++ [StreamsQuery filters true] |}
     ∧ ∀ e : exn,
         streams_answer env (log w) filters true = Raise e →
         (daily_image env release arch w).1 = Raise e).
Proof.
  cbv zeta. unfold released_image, daily_image. unfold_M.
  rewrite !find_image_unfold. unfold find_image_filters.
  split; split.
  - destruct (streams_answer env (log w) _ false) as [[|d ds]|e];
      cbn [list_item0]; try reflexivity.
    destruct (dict_item d "sha256"); reflexivity.
  - intros e ->. reflexivity.
  - destruct (streams_answer env (log w) _ true) as [[|d ds]|e];
      cbn [list_item0]; try reflexivity.
    destruct (dict_item d "sha256"); reflexivity.
  - intros e ->. reflexivity.
Qed.

Lemma image_ref_queries_witness :
  (released_image Fixture.env_streams_down "plucky" "riscv64" Fixture.fresh).2
  = {| self := self Fixture.fresh;
       log := [StreamsQuery [ "datatype=image-downloads"; "ftype=disk1.img";
                              "arch=riscv64"; "release=plucky" ] false] |}
  ∧ (released_image Fixture.env_streams_down "plucky" "riscv64" Fixture.fresh).1
    = Raise (ExternalError "streams")
  ∧ (daily_image Fixture.env_streams_down "plucky" "riscv64" Fixture.fresh).2
    = {| self := self Fixture.fresh;
         log := [StreamsQuery [ "datatype=image-downloads"; "ftype=disk1.img";
                                "arch=riscv64"; "release=plucky" ] true] |}
  ∧ (daily_image Fixture.env_streams_down "plucky" "riscv64" Fixture.fresh).1
    = Raise (ExternalError "streams").
Proof.
  destruct (image_ref_queries Fixture.env_streams_down "plucky" "riscv64"
              Fixture.fresh)
    as [[Hrel Hrel_e] [Hday Hday_e]].
  split; [exact Hrel|]. split; [apply Hrel_e; reflexivity|].
  split; [exact Hday|]. apply Hday_e; reflexivity.
Defined.

(** ** The default remote of launch *)

(** The command of a [launch] that returns, around the image id. *)
Lemma launch_ok_image (env : Env) (image_id : string)
    (instance_type user_data name : option string) (wait : bool)
    (w w' : world) (inst : KVMInstance) :
  launch env image_id instance_type user_data wait name w = (Ok inst, w') →
  ∃ (urls type_args extra : list string) (data : option string),
    log w' = log w ++ map HttpGet urls
                   ++ [Subp (["multipass"; "launch"; "--name";
                              instance_name inst]
                             ++ type_args
                             ++ [if PyStr.contains ":" image_id then image_id
                                 else "daily:" +:+ image_id]
                             ++ extra) data]
    ∧ (type_args = []
       ∨ ∃ c m : string, type_args = ["--cpus"; c; "--mem"; m])
    ∧ (extra = [] ∨ extra = ["--cloud-init"; "-"]).
Proof.
  intros H. destruct wait; [|discriminate H].
  unfold launch, get_tag, subp in H. unfold_M. cbn [negb] in H.
  assert ((if negb (PyStr.contains ":" image_id)
           then _daily_remote +:+ ":" +:+ image_id else image_id)
          = (if PyStr.contains ":" image_id then image_id
             else "daily:" +:+ image_id))
    as Himage by (destruct (PyStr.contains ":" image_id); reflexivity).
  rewrite Himage in H. clear Himage.
  assert (∀ (ud : option string) (w0 w2 : world) (extra : list string)
            (data : option string),
             user_data_args env ud w0 = (Ok (extra, data), w2) →
             w2 = w0 ∧ (extra = [] ∨ extra = ["--cloud-init"; "-"]))
    as Hextra.
  { intros ud w0 w2 extra data Hud.
    destruct (user_data_args_ok env _ _ _ _ _ Hud)
      as [-> [(_ & -> & _) | (u & d & _ & _ & -> & _)]];
      (split; [reflexivity|]); [left|right]; reflexivity. }
  destruct (PyStr.opt_truthy instance_type).
  - destruct (resolve_instance_type_frame env (default "" instance_type) w)
      as [_ [urls Hlog]].
    destruct (resolve_instance_type env (default "" instance_type) w)
      as [[[cpus mem_bytes]|e] w1]; [|discriminate H]. cbn [snd] in Hlog.
    destruct (user_data_args env user_data w1) as [[[extra data]|e] w2] eqn:Hud;
      [|discriminate H].
    destruct (Hextra _ _ _ _ _ Hud) as [-> Hshape].
    match type of H with context [subp_answer env ?l ?c ?d] =>
      destruct (subp_answer env l c d) as [[]|e] end; [|discriminate H].
    injection H as <- <-. cbn [instance_name log].
    exists urls, ["--cpus"; PyNum.str cpus; "--mem"; PyNum.str mem_bytes],
      extra, data.
    split; [rewrite Hlog, <- !app_assoc; reflexivity|].
    split; [right; do 2 eexists; reflexivity|exact Hshape].
  - destruct (user_data_args env user_data w) as [[[extra data]|e] w2] eqn:Hud;
      [|discriminate H].
    destruct (Hextra _ _ _ _ _ Hud) as [-> Hshape].
    match type of H with context [subp_answer env ?l ?c ?d] =>
      destruct (subp_answer env l c d) as [[]|e] end; [|discriminate H].
    injection H as <- <-. cbn [instance_name log].
    exists [], [], extra, data. cbn [map app].
    split; [reflexivity|]. split; [left; reflexivity|exact Hshape].
Qed.

(** X4. [launch] and [image_serial] agree on the default remote. A
    [launch] that returns, called with an image id without a colon,
    passed [daily:] followed by that id to its command, as the argument
    after the name and the instance-type arguments and before
    [--cloud-init -]; and for [image_serial] that full id is the same
    request as the bare id: the daily remote, asked for the same
    [sha256]. *)
Theorem default_remote_agrees (env : Env) (image_id : string)
    (instance_type user_data name : option string) (wait : bool)
    (w w' : world) (inst : KVMInstance) :
  PyStr.contains ":" image_id = false →
  launch env image_id instance_type user_data wait name w = (Ok inst, w') →
  ∃ (urls type_args extra : list string) (data : option string),
    log w' = log w ++ map HttpGet urls
                   ++ [Subp (["multipass"; "launch"; "--name";
                              instance_name inst]
                             ++ type_args ++ ["daily:" +:+ image_id]
                             ++ extra) data]
    ∧ (type_args = []
       ∨ ∃ c m : string, type_args = ["--cpus"; c; "--mem"; m])
    ∧ (extra = [] ∨ extra = ["--cloud-init"; "-"])
    ∧ split_remote ("daily:" +:+ image_id) = Ok (true, image_id)
    ∧ split_remote image_id = Ok (true, image_id)
    ∧ ∀ w2 : world,
        image_serial env ("daily:" +:+ image_id) w2
        = image_serial env image_id w2.
Proof.
  intros Hbare Hlaunch.
  destruct (launch_ok_image env _ _ _ _ _ _ _ _ Hlaunch)
    as (urls & type_args & extra & data & Hlog & Htype & Hextra).
  rewrite Hbare in Hlog.
  exists urls, type_args, extra, data.
  split; [exact Hlog|]. split; [exact Htype|]. split; [exact Hextra|].
  assert (split_remote ("daily:" +:+ image_id) = Ok (true, image_id))
    as Hfull by (apply (split_remote_prefixed "daily" image_id); reflexivity).
  split; [exact Hfull|].
  split; [exact (split_remote_no_colon _ Hbare)|].
  intros w2.
  rewrite (image_serial_after_split env _ _ _ w2 Hfull).
  rewrite (image_serial_after_split env _ _ _ w2 (split_remote_no_colon _ Hbare)).
  reflexivity.
Qed.

Lemma default_remote_agrees_witness :
  ∃ (urls type_args extra : list string) (data : option string),
    [ Subp ["multipass"; "launch"; "--name"; "test"; "daily:abc123"] None ]
    = [] ++ map HttpGet urls
         ++ [Subp (["multipass"; "launch"; "--name"; "test"]
                   ++ type_args ++ ["daily:" +:+ "abc123"] ++ extra) data]
    ∧ (type_args = []
       ∨ ∃ c m : string, type_args = ["--cpus"; c; "--mem"; m])
    ∧ (extra = [] ∨ extra = ["--cloud-init"; "-"])
    ∧ split_remote ("daily:" +:+ "abc123") = Ok (true, "abc123")
    ∧ split_remote "abc123" = Ok (true, "abc123")
    ∧ ∀ w2 : world,
        image_serial Fixture.env0 ("daily:" +:+ "abc123") w2
        = image_serial Fixture.env0 "abc123" w2.
Proof.
  apply (default_remote_agrees Fixture.env0 "abc123" None None None true
           Fixture.fresh
           {| self := self Fixture.fresh;
              log := [ Subp ["multipass"; "launch"; "--name"; "test";
                             "daily:abc123"] None ] |}
           {| instance_name := "test" |}).
  - reflexivity.
  - reflexivity.
Defined.
